(** * Shutter response analysis: [analysis_1_function.py]

    A shallow embedding of [find_intersection], [flat_line], [main_analysis]
    and [data_integration], with the properties of the crossing finder, the
    level fit, the single-record analysis and the batch loop.

    Conventions of the embedding.
    - A numpy [float64] is an exact rational ([Q]) in the embedding of
      the whole pipeline: what is proved of it is about comparisons,
      indexing, exceptions and the order of the statements, and does not
      lean on the value a rounded operation would give.  Comparisons are
      the strict comparisons of the source.  What depends on rounding is
      replayed on binary64 floats ([f64_find_intersection]).
    - A Python exception is a value of [exn]; code that can raise returns
      a [result].  Statements run in source order, so the first exception
      raised is the one returned.
    - A division reports a zero divisor as [ZeroDivisionError], so that the
      absence of such a division is a property of the code.
    - [scipy.signal.savgol_filter] validates the window length and then
      smooths; the smoothing kernel itself is a parameter ([smooth]).
    - [scipy.optimize.curve_fit] is the least-squares parameter of a model
      of one parameter, by its normal equation: the value the routine
      approaches, not the value its iteration in binary64 stops at.
    - [os.listdir], the parsing of a voltage out of a file name and
      [pd.read_csv] are parameters of the batch loop.
    - A [DataFrame] has the three columns the analysis reads, of one
      length: the [KeyError] of lines 49-51 on a file without one of them
      is outside the embedding. *)

From Stdlib Require Import String.
From Stdlib Require Import List Arith Lia Bool.
From Stdlib Require Import ZArith QArith Lqa.
From Stdlib Require Import Sorted Floats.
Import ListNotations.

Local Open Scope Q_scope.

(** ** Exceptions and results *)

(** Where a [ValueError] comes from. *)
Inductive value_error : Type :=
| WindowTooLong       (* savgol_filter: window_length > len(x), mode 'interp' *)
| OrderTooHigh        (* savgol_filter: polyorder >= window_length *)
| EmptyReduction      (* np.max / np.min of an empty array *)
| EmptyData           (* curve_fit: ydata is empty *)
| BadLabel            (* float(...) of a file name that is no number *)
| BadCsv              (* pd.read_csv: empty or unparsable file *)
| LowCrossingsNotFound (* line 83 of main_analysis *).

Inductive exn : Type :=
| ValueError (why : value_error)
| IndexError
| ZeroDivisionError
| OSError.

Inductive result (A : Type) : Type :=
| Ok (a : A)
| Err (e : exn).

Arguments Ok {A} a.
Arguments Err {A} e.

Definition bind {A B : Type} (r : result A) (k : A -> result B) : result B :=
  match r with
  | Ok a => k a
  | Err e => Err e
  end.

Notation "x <- r ;; k" := (bind r (fun x => k))
  (at level 61, r at next level, right associativity).

Definition is_ok {A : Type} (r : result A) : bool :=
  match r with Ok _ => true | Err _ => false end.

(** ** Numbers *)

(** [a < b] on floats, as a boolean. *)
Definition Qltb (a b : Q) : bool := negb (Qle_bool b a).

(** [a / b]; a zero divisor is reported, never divided by. *)
Definition checked_div (a b : Q) : result Q :=
  if Qeq_bool b 0 then Err ZeroDivisionError else Ok (a / b).

(** [l[i]] for a non-negative index. *)
Definition index (l : list Q) (i : nat) : result Q :=
  match nth_error l i with
  | Some v => Ok v
  | None => Err IndexError
  end.

(** ** [find_intersection] (lines 26-35) *)

(** The test of line 30 on one pair of neighbouring samples. *)
Definition crosses (level a b : Q) : bool :=
  (Qltb level a && Qltb b level) || (Qltb a level && Qltb level b).

(** Lines 30-34: one iteration of the loop, on the list built so far. *)
Definition intersection_step (x y : list Q) (level : Q)
    (intersections : list Q) (i : nat) : result (list Q) :=
  yi <- index y i ;;
  yi1 <- index y (i + 1) ;;
  if crosses level yi yi1 then
    t <- checked_div (level - yi) (yi1 - yi) ;;
    xi <- index x i ;;
    xi1 <- index x (i + 1) ;;
    let intersection_time := xi + t * (xi1 - xi) in
    Ok (intersections ++ [intersection_time])
  else Ok intersections.

(** An iteration runs only if none before it raised. *)
Definition intersection_loop (x y : list Q) (level : Q)
    (acc : result (list Q)) (i : nat) : result (list Q) :=
  intersections <- acc ;; intersection_step x y level intersections i.

(** [for i in range(len(y) - 1)]: an empty range when [y] is empty. *)
Definition find_intersection (x y : list Q) (level : Q) : result (list Q) :=
  fold_left (intersection_loop x y level) (seq 0 (length y - 1)) (Ok []).

(** ** [flat_line] (lines 22-23) and the level fit *)

(** [a * np.ones_like(x)]. *)
Definition flat_line (x : list Q) (a : Q) : list Q :=
  map (fun _ => a * 1) x.

Definition Qsum (l : list Q) : Q := fold_right Qplus 0 l.

(** [sum((f(xdata, a) - ydata) ** 2)]: what [curve_fit] minimises. *)
Definition sum_sq_residuals (f : list Q -> Q -> list Q) (xdata ydata : list Q) (a : Q) : Q :=
  Qsum (map (fun p => (fst p - snd p) * (fst p - snd p)) (combine (f xdata a) ydata)).

(** [a] is an ordinary-least-squares fit of the one-parameter model [f]. *)
Definition is_least_squares (f : list Q -> Q -> list Q) (xdata ydata : list Q) (a : Q) : Prop :=
  forall b : Q, sum_sq_residuals f xdata ydata a <= sum_sq_residuals f xdata ydata b.

(** [scipy.optimize.curve_fit(f, xdata, ydata)[0][0]] for a model [f] of one
    parameter, in exact arithmetic.  Empty [ydata] is a [ValueError]
    ("ydata must not be empty").  For a model affine in its parameter the
    least-squares parameter solves the normal equation
    [sum J*J * a = sum J*(ydata - f(xdata,0))], with [J] the derivative of
    the model in the parameter; a model that does not depend on the
    parameter leaves the initial guess [p0 = 1] where it is.  This is the
    value the routine approaches; its iteration in binary64 may stop
    elsewhere.  The general theorems use a fitted level only as the
    threshold of comparisons; the worked captures give its value in exact
    arithmetic. *)
Definition curve_fit (f : list Q -> Q -> list Q) (xdata ydata : list Q) : result Q :=
  match ydata with
  | [] => Err (ValueError EmptyData)
  | _ :: _ =>
    let p0 := 1 in
    let f0 := f xdata 0 in
    let J := map (fun p => fst p - snd p) (combine (f xdata 1) f0) in
    let JtJ := Qsum (map (fun j => j * j) J) in
    let Jty := Qsum (map (fun p => fst p * snd p)
                      (combine J (map (fun p => fst p - snd p) (combine ydata f0)))) in
    if Qeq_bool JtJ 0 then Ok p0 else Ok (Jty / JtJ)
  end.

(** A count as a float. *)
Definition Qlen (n : nat) : Q := inject_Z (Z.of_nat n).

(** The arithmetic mean, as the specification words the level fit. *)
Definition mean (ys : list Q) : Q := Qsum ys / Qlen (length ys).

(** ** numpy idioms used by [main_analysis] *)

Definition Qmaxb (a b : Q) : Q := if Qltb a b then b else a.
Definition Qminb (a b : Q) : Q := if Qltb b a then b else a.

Definition np_max (l : list Q) : result Q :=
  match l with
  | [] => Err (ValueError EmptyReduction)
  | v :: r => Ok (fold_left Qmaxb r v)
  end.

Definition np_min (l : list Q) : result Q :=
  match l with
  | [] => Err (ValueError EmptyReduction)
  | v :: r => Ok (fold_left Qminb r v)
  end.

(** [c < thr] and [c > thr], elementwise. *)
Definition lt_mask (c : list Q) (thr : Q) : list bool := map (fun v => Qltb v thr) c.
Definition gt_mask (c : list Q) (thr : Q) : list bool := map (fun v => Qltb thr v) c.

(** [a & b] on two masks of one length. *)
Definition mask_and (a b : list bool) : list bool :=
  map (fun p => fst p && snd p) (combine a b).

Fixpoint where_from (i : nat) (mask : list bool) : list nat :=
  match mask with
  | [] => []
  | b :: m => if b then i :: where_from (S i) m else where_from (S i) m
  end.

(** [np.where(mask)[0]]: the indices at which the mask holds, ascending. *)
Definition np_where (mask : list bool) : list nat := where_from 0 mask.

(** [idx[0]] of an index array. *)
Definition first_of (idx : list nat) : result nat :=
  match idx with
  | [] => Err IndexError
  | i :: _ => Ok i
  end.

(** [np.where((c[:-1] < thr) & (c[1:] > thr))[0][0]]. *)
Definition rising_index (c : list Q) (thr : Q) : result nat :=
  first_of (np_where (mask_and (lt_mask (removelast c) thr) (gt_mask (tl c) thr))).

(** [np.where((c[:-1] > thr) & (c[1:] < thr))[0][0]]. *)
Definition falling_index (c : list Q) (thr : Q) : result nat :=
  first_of (np_where (mask_and (gt_mask (removelast c) thr) (lt_mask (tl c) thr))).

(** [a[idx]] for an index array [idx]. *)
Fixpoint take (a : list Q) (idx : list nat) : result (list Q) :=
  match idx with
  | [] => Ok []
  | i :: r => v <- index a i ;; vs <- take a r ;; Ok (v :: vs)
  end.

(** The time of the first pair through [thr]: an index found by one of
    the two scans above, then [time[index]] (lines 73-74 and 87-88; lines
    59-62 do the same for both directions of the trigger). *)
Definition edge_time (rising : bool) (time c : list Q) (thr : Q) : result Q :=
  i <- (if rising then rising_index c thr else falling_index c thr) ;;
  index time i.

(** ** Data *)

(** One row of the oscilloscope capture: columns Time(s), CH1(V), CH2(V). *)
Record row : Type := { Time_s : Q; CH1_V : Q; CH2_V : Q }.

Definition DataFrame : Type := list row.

(** The tuple returned by [main_analysis], in its order. *)
Record outcome : Type := {
  CH2_rise_duration : Q;
  CH2_fall_duration : Q;
  rise_response_time : Q;
  fall_response_time : Q
}.

(** The local variables of [main_analysis] alive after line 77. *)
Record stage : Type := {
  time : list Q;
  CH2 : list Q;
  CH1_left_time : Q;
  CH1_right_time : Q;
  CH2_high_level : Q;
  CH2_low_level : Q;
  CH2_fall_start_time : Q;
  low_intersections : list Q
}.

(** The five lists built by [data_integration]. *)
Record groups : Type := {
  voltage_group : list Q;
  rise_time_group : list Q;
  fall_time_group : list Q;
  rise_response_time_group : list Q;
  fall_response_time_group : list Q
}.

Definition no_groups : groups := {|
  voltage_group := []; rise_time_group := []; fall_time_group := [];
  rise_response_time_group := []; fall_response_time_group := [] |}.

(** [file_name.endswith(suffix)]. *)
Definition endswith (s suffix : string) : bool :=
  let n := String.length s in
  let m := String.length suffix in
  (m <=? n)%nat && String.eqb (substring (n - m) m s) suffix.

(** What the loop body meets in one directory entry. *)
Inductive entry : Type :=
| NotRead                                  (* no .csv name, or a ValueError before the analysis *)
| Analysed (voltage : Q) (o : outcome)     (* main_analysis returned *)
| Rejected (voltage : Q) (why : value_error) (* main_analysis raised a ValueError *)
| Fatal (e : exn).                         (* any other exception *)

(** ** The pipeline *)

Section Pipeline.

(** The Savitzky-Golay kernel of scipy: channel, window length, order. *)
Variable smooth : list Q -> nat -> nat -> list Q.

(** [os.listdir(file_path)]. *)
Variable listdir : string -> list string.

(** Line 117: [float] of the last blank-separated word of the file name,
    its [.csv] taken off. *)
Variable parse_voltage : string -> result Q.

(** [pd.read_csv(os.path.join(file_path, file_name))]. *)
Variable read_csv : string -> string -> result DataFrame.

(** [scipy.signal.savgol_filter(x, window_length, polyorder)] in its
    default mode ['interp']: the window must fit in the channel, and the
    order must be below the window length. *)
Definition savgol_filter (x : list Q) (window_length polyorder : nat) : result (list Q) :=
  if (length x <? window_length)%nat then Err (ValueError WindowTooLong)
  else if (window_length <=? polyorder)%nat then Err (ValueError OrderTooHigh)
  else Ok (smooth x window_length polyorder).

(** Lines 49-77 of [main_analysis]. *)
Definition main_analysis_prefix (data : DataFrame) : result stage :=
  let time := map Time_s data in
  let ch1 := map CH1_V data in
  let ch2 := map CH2_V data in
  let window_length := 1511%nat in
  let polyorder := 3%nat in
  CH1 <- savgol_filter ch1 window_length polyorder ;;
  CH2 <- savgol_filter ch2 window_length polyorder ;;
  CH1_max <- np_max CH1 ;;
  CH1_min <- np_min CH1 ;;
  let CH1_threshold := (CH1_max + CH1_min) / 2 in
  CH1_left_index <- rising_index CH1 CH1_threshold ;;
  CH1_right_index <- falling_index CH1 CH1_threshold ;;
  CH1_left_time <- index time CH1_left_index ;;
  CH1_right_time <- index time CH1_right_index ;;
  CH2_max <- np_max CH2 ;;
  CH2_min <- np_min CH2 ;;
  let high_indices := np_where (gt_mask CH2 ((CH2_max + CH2_min) / 2)) in
  let low_indices := np_where (lt_mask CH2 ((CH2_max + CH2_min) / 2)) in
  time_high <- take time high_indices ;;
  CH2_high <- take CH2 high_indices ;;
  CH2_high_level <- curve_fit flat_line time_high CH2_high ;;
  time_low <- take time low_indices ;;
  CH2_low <- take CH2 low_indices ;;
  CH2_low_level <- curve_fit flat_line time_low CH2_low ;;
  CH2_fall_start_time <- edge_time false time CH2 CH2_high_level ;;
  low_intersections <- find_intersection time CH2 CH2_low_level ;;
  Ok {| time := time; CH2 := CH2;
        CH1_left_time := CH1_left_time; CH1_right_time := CH1_right_time;
        CH2_high_level := CH2_high_level; CH2_low_level := CH2_low_level;
        CH2_fall_start_time := CH2_fall_start_time;
        low_intersections := low_intersections |}.

(** Lines 79-94 of [main_analysis]. *)
Definition main_analysis_suffix (s : stage) : result outcome :=
  match low_intersections s with
  | first :: second :: _ =>
    let CH2_rise_start_time := first in   (* line 80: low_intersections[0] *)
    let CH2_fall_end_time := second in    (* line 81: low_intersections[1] *)
    let CH2_fall_duration := CH2_fall_end_time - CH2_fall_start_time s in
    CH2_rise_end_time <- edge_time true (time s) (CH2 s) (CH2_high_level s) ;;
    let CH2_rise_duration := CH2_rise_end_time - CH2_rise_start_time in
    let rise_response_time := CH2_rise_start_time - CH1_left_time s in
    let fall_response_time := CH2_fall_start_time s - CH1_right_time s in
    Ok {| CH2_rise_duration := CH2_rise_duration;
          CH2_fall_duration := CH2_fall_duration;
          rise_response_time := rise_response_time;
          fall_response_time := fall_response_time |}
  | _ => Err (ValueError LowCrossingsNotFound)
  end.

Definition main_analysis (data : DataFrame) : result outcome :=
  s <- main_analysis_prefix data ;; main_analysis_suffix s.

(** [except ValueError as e: print(...)]: a [ValueError] ends the file at
    hand and keeps what was appended before it; anything else leaves the
    loop and the function. *)
Definition except_ValueError (g : groups) (e : exn) : result groups :=
  match e with
  | ValueError _ => Ok g
  | _ => Err e
  end.

Definition append_voltage (g : groups) (voltage : Q) : groups := {|
  voltage_group := voltage_group g ++ [voltage];
  rise_time_group := rise_time_group g;
  fall_time_group := fall_time_group g;
  rise_response_time_group := rise_response_time_group g;
  fall_response_time_group := fall_response_time_group g |}.

Definition append_outcome (g : groups) (o : outcome) : groups := {|
  voltage_group := voltage_group g;
  rise_time_group := rise_time_group g ++ [CH2_rise_duration o];
  fall_time_group := fall_time_group g ++ [CH2_fall_duration o];
  rise_response_time_group := rise_response_time_group g ++ [rise_response_time o];
  fall_response_time_group := fall_response_time_group g ++ [fall_response_time o] |}.

(** Lines 114-128: the body of the loop for one directory entry. *)
Definition process_file (file_path : string) (g : groups) (file_name : string) : result groups :=
  if endswith file_name ".csv" then
    match parse_voltage file_name with
    | Err e => except_ValueError g e
    | Ok voltage =>
      match read_csv file_path file_name with
      | Err e => except_ValueError g e
      | Ok data =>
        let g1 := append_voltage g voltage in
        match main_analysis data with
        | Err e => except_ValueError g1 e
        | Ok o => Ok (append_outcome g1 o)
        end
      end
    end
  else Ok g.

(** The loop of line 112 over a list of directory entries. *)
Fixpoint integrate (file_path : string) (g : groups) (names : list string) : result groups :=
  match names with
  | [] => Ok g
  | file_name :: rest =>
    g' <- process_file file_path g file_name ;; integrate file_path g' rest
  end.

Definition data_integration (file_path : string) : result groups :=
  integrate file_path no_groups (listdir file_path).

(** How many low-level crossings line 77 finds. *)
Definition low_crossing_count (data : DataFrame) : result nat :=
  s <- main_analysis_prefix data ;; Ok (length (low_intersections s)).

(** What the loop body meets in the entry [file_name]. *)
Definition entry_of (file_path file_name : string) : entry :=
  if endswith file_name ".csv" then
    match parse_voltage file_name with
    | Err (ValueError _) => NotRead
    | Err e => Fatal e
    | Ok voltage =>
      match read_csv file_path file_name with
      | Err (ValueError _) => NotRead
      | Err e => Fatal e
      | Ok data =>
        match main_analysis data with
        | Ok o => Analysed voltage o
        | Err (ValueError why) => Rejected voltage why
        | Err e => Fatal e
        end
      end
    end
  else NotRead.

(** The entries of the directory, in the order [os.listdir] gives them. *)
Definition entries (file_path : string) : list entry :=
  map (entry_of file_path) (listdir file_path).

End Pipeline.

Definition is_fatal (e : entry) : bool :=
  match e with Fatal _ => true | _ => false end.

Definition is_rejected (e : entry) : bool :=
  match e with Rejected _ _ => true | _ => false end.

(** The voltages appended by line 121, in the order of the entries. *)
Definition voltages_of (es : list entry) : list Q :=
  flat_map (fun e => match e with
                     | Analysed v _ => [v]
                     | Rejected v _ => [v]
                     | _ => []
                     end) es.

(** The records that were analysed, in the order of the entries. *)
Definition dataset_of (es : list entry) : list (Q * outcome) :=
  flat_map (fun e => match e with Analysed v o => [(v, o)] | _ => [] end) es.

(** The groups after the loop has met the entries [es]. *)
Definition extend (g : groups) (es : list entry) : groups := {|
  voltage_group := voltage_group g ++ voltages_of es;
  rise_time_group := rise_time_group g ++ map (fun r => CH2_rise_duration (snd r)) (dataset_of es);
  fall_time_group := fall_time_group g ++ map (fun r => CH2_fall_duration (snd r)) (dataset_of es);
  rise_response_time_group :=
    rise_response_time_group g ++ map (fun r => rise_response_time (snd r)) (dataset_of es);
  fall_response_time_group :=
    fall_response_time_group g ++ map (fun r => fall_response_time (snd r)) (dataset_of es) |}.

(** The lengths of the five arrays returned. *)
Definition lengths (g : groups) : list nat :=
  [ length (voltage_group g); length (rise_time_group g); length (fall_time_group g);
    length (rise_response_time_group g); length (fall_response_time_group g) ].

(** ** Vocabulary of the statements *)

(** [y[i]] and [y[i+1]] lie strictly on opposite sides of [level]. *)
Definition crossing_at (y : list Q) (level : Q) (i : nat) : bool :=
  crosses level (nth i y 0) (nth (i + 1) y 0).

(** The pairs of neighbours that qualify, by their first index, ascending. *)
Definition crossing_pairs (y : list Q) (level : Q) : list nat :=
  filter (crossing_at y level) (seq 0 (length y - 1)).

(** [t[i] + (level - y[i]) / (y[i+1] - y[i]) * (t[i+1] - t[i])]. *)
Definition interpolate (x y : list Q) (level : Q) (i : nat) : Q :=
  nth i x 0 + (level - nth i y 0) / (nth (i + 1) y 0 - nth i y 0) * (nth (i + 1) x 0 - nth i x 0).

(** What the pair starting at [i] adds to the list of crossings. *)
Definition crossing_found (x y : list Q) (level : Q) (i : nat) : list Q :=
  if crossing_at y level i then [interpolate x y level i] else [].

(** The pair [(c[i], c[i+1])] rises through [thr]. *)
Definition rises_at (c : list Q) (thr : Q) (i : nat) : Prop :=
  (i + 1 < length c)%nat /\ nth i c 0 < thr /\ thr < nth (i + 1) c 0.

(** The pair [(c[i], c[i+1])] falls through [thr]. *)
Definition falls_at (c : list Q) (thr : Q) (i : nat) : Prop :=
  (i + 1 < length c)%nat /\ thr < nth i c 0 /\ nth (i + 1) c 0 < thr.

(** A pair passes [thr] in the direction asked for. *)
Definition edge_at (rising : bool) (c : list Q) (thr : Q) (i : nat) : Prop :=
  if rising then rises_at c thr i else falls_at c thr i.

(** An exception that lines 49-77 can raise. *)
Definition early_failure (e : exn) : Prop :=
  e = IndexError \/ e = ValueError WindowTooLong \/
  e = ValueError EmptyReduction \/ e = ValueError EmptyData.

(** The times and levels held by a stage, each in lowest terms. *)
Record readings : Type := {
  trigger_rise : Q;
  trigger_fall : Q;
  high_level : Q;
  low_level : Q;
  fall_start : Q;
  crossings : list Q
}.

Definition readings_of (s : stage) : readings := {|
  trigger_rise := Qred (CH1_left_time s);
  trigger_fall := Qred (CH1_right_time s);
  high_level := Qred (CH2_high_level s);
  low_level := Qred (CH2_low_level s);
  fall_start := Qred (CH2_fall_start_time s);
  crossings := map Qred (low_intersections s) |}.

(** An outcome with each number in lowest terms. *)
Definition reduced (o : outcome) : outcome := {|
  CH2_rise_duration := Qred (CH2_rise_duration o);
  CH2_fall_duration := Qred (CH2_fall_duration o);
  rise_response_time := Qred (rise_response_time o);
  fall_response_time := Qred (fall_response_time o) |}.

(** ** Captures used as examples

    The channels are samples of polynomials of degree at most three at
    1511 equally spaced times: a Savitzky-Golay filter of order three
    reproduces such samples, so on them the kernel is [keep]. *)

Definition keep (c : list Q) (window_length polyorder : nat) : list Q := c.

Definition capture (samples : nat) (ch1 ch2 : Z -> Z) : DataFrame :=
  map (fun k => let z := Z.of_nat k in
         {| Time_s := inject_Z z; CH1_V := inject_Z (ch1 z); CH2_V := inject_Z (ch2 z) |})
      (seq 0 samples).

(** A trigger that rises through its midpoint and falls back. *)
Definition pulse (z : Z) : Z := (- ((z - 755) * (z - 755)))%Z.

(** A trigger that never moves. *)
Definition idle (z : Z) : Z := 0%Z.

(** A response that falls from its high level to a low one and returns. *)
Definition dip (z : Z) : Z := ((z - 755) * (z - 755))%Z.

(** A response that crosses its low level three times. *)
Definition wiggle (z : Z) : Z :=
  (4 * (z - 755) * (z - 755) * (z - 755) - 3 * 755 * 755 * (z - 755))%Z.

(** A response that decays and never returns. *)
Definition decay (z : Z) : Z := ((1510 - z) * (1510 - z))%Z.

Definition good_capture : DataFrame := capture 1511 pulse dip.
Definition wiggle_capture : DataFrame := capture 1511 pulse wiggle.
Definition decay_capture : DataFrame := capture 1511 pulse decay.
Definition idle_capture : DataFrame := capture 1511 idle dip.
Definition short_capture : DataFrame := capture 3 pulse dip.

(** A directory held in memory: each file with the voltage its name
    carries and the frame [pd.read_csv] makes of it. *)
Record file : Type := { name : string; label : Q; frame : DataFrame }.

Definition disk_listdir (disk : list file) (file_path : string) : list string :=
  map name disk.

Definition disk_find (disk : list file) (file_name : string) : option file :=
  find (fun f => String.eqb (name f) file_name) disk.

Definition disk_parse (disk : list file) (file_name : string) : result Q :=
  match disk_find disk file_name with
  | Some f => Ok (label f)
  | None => Err (ValueError BadLabel)
  end.

Definition disk_read (disk : list file) (file_path file_name : string) : result DataFrame :=
  match disk_find disk file_name with
  | Some f => Ok (frame f)
  | None => Err OSError
  end.

(** [data_integration] on a directory held in memory, kernel [keep]. *)
Definition run (disk : list file) : result groups :=
  data_integration keep (disk_listdir disk) (disk_parse disk) (disk_read disk) "shutter".

Definition ten_files : list file := [
  {| name := "S 10.csv"; label := 10; frame := good_capture |};
  {| name := "S 15.csv"; label := 15; frame := good_capture |};
  {| name := "S 20.csv"; label := 20; frame := good_capture |};
  {| name := "S 25.csv"; label := 25; frame := decay_capture |};
  {| name := "S 30.csv"; label := 30; frame := good_capture |};
  {| name := "S 35.csv"; label := 35; frame := good_capture |};
  {| name := "S 40.csv"; label := 40; frame := good_capture |};
  {| name := "S 45.csv"; label := 45; frame := good_capture |};
  {| name := "S 50.csv"; label := 50; frame := good_capture |};
  {| name := "S 55.csv"; label := 55; frame := good_capture |} ].

Definition three_files : list file := [
  {| name := "S 5.csv"; label := 5; frame := good_capture |};
  {| name := "S 1.csv"; label := 1; frame := wiggle_capture |};
  {| name := "S 3.csv"; label := 3; frame := good_capture |} ].

Definition idle_files : list file := [
  {| name := "S 5.csv"; label := 5; frame := good_capture |};
  {| name := "S 1.csv"; label := 1; frame := idle_capture |};
  {| name := "S 3.csv"; label := 3; frame := good_capture |} ].

Definition short_files : list file := [
  {| name := "S 5.csv"; label := 5; frame := good_capture |};
  {| name := "S 1.csv"; label := 1; frame := short_capture |};
  {| name := "notes.txt"; label := 0; frame := [] |};
  {| name := "S 3.csv"; label := 3; frame := good_capture |} ].

(** ** [main_plot] (lines 136-164) *)

(** What becomes of a call of [main_plot]: both figures are drawn, or one
    of the two calls of [plt.scatter] raises (matplotlib refuses two arrays
    of different sizes with a [ValueError]). *)
Inductive plotted : Type :=
| BothDrawn
| RiseScatterRaises   (* line 152 *)
| FallScatterRaises.  (* line 159, after the first figure was shown *)

(** [plt.scatter(x, y)] takes its two arrays. *)
Definition scatter_accepts (x y : list Q) : bool := (length x =? length y)%nat.

Definition main_plot (outcome : groups) : plotted :=
  let voltage := voltage_group outcome in
  let rise_response := rise_response_time_group outcome in
  let fall_response := fall_response_time_group outcome in
  if negb (scatter_accepts voltage rise_response) then RiseScatterRaises
  else if negb (scatter_accepts voltage fall_response) then FallScatterRaises
  else BothDrawn.

(** ** Further vocabulary *)

(** The time base reaches both samples of every qualifying pair of [l]. *)
Definition covered (x y : list Q) (level : Q) (l : list nat) : bool :=
  forallb (fun i => negb (crossing_at y level i) || (i + 1 <? length x)%nat) l.

(** No sample is below the one before it. *)
Fixpoint non_decreasing (c : list Q) : bool :=
  match c with
  | [] => true
  | a :: r => match r with [] => true | b :: _ => Qle_bool a b end && non_decreasing r
  end.

(** The kernel returns as many samples as it is given. *)
Definition keeps_length (smooth : list Q -> nat -> nat -> list Q) : Prop :=
  forall (c : list Q) (window_length polyorder : nat),
    length (smooth c window_length polyorder) = length c.

(** Two results of the loop, one after the other. *)
Definition join_groups (g h : groups) : groups := {|
  voltage_group := voltage_group g ++ voltage_group h;
  rise_time_group := rise_time_group g ++ rise_time_group h;
  fall_time_group := fall_time_group g ++ fall_time_group h;
  rise_response_time_group := rise_response_time_group g ++ rise_response_time_group h;
  fall_response_time_group := fall_response_time_group g ++ fall_response_time_group h |}.

Definition is_not_read (e : entry) : bool :=
  match e with NotRead => true | _ => false end.

(** A trigger that only rises while the capture lasts. *)
Definition ramp (z : Z) : Z := z.

Definition ramp_capture : DataFrame := capture 1511 ramp dip.

(** ** [find_intersection] on binary64

    Lines 26-35 once more, over the numbers the code runs on: IEEE 754
    binary64 with rounding to nearest even, which is what the kernel's
    floats are.  It serves to replay what depends on rounding.  A float
    division raises nothing. *)

Definition f64_index (l : list float) (i : nat) : result float :=
  match nth_error l i with
  | Some v => Ok v
  | None => Err IndexError
  end.

Definition f64_crosses (level a b : float) : bool :=
  (PrimFloat.ltb level a && PrimFloat.ltb b level)
  || (PrimFloat.ltb a level && PrimFloat.ltb level b).

Definition f64_intersection_step (x y : list float) (level : float)
    (intersections : list float) (i : nat) : result (list float) :=
  yi <- f64_index y i ;;
  yi1 <- f64_index y (i + 1) ;;
  if f64_crosses level yi yi1 then
    let t := PrimFloat.div (PrimFloat.sub level yi) (PrimFloat.sub yi1 yi) in
    xi <- f64_index x i ;;
    xi1 <- f64_index x (i + 1) ;;
    let intersection_time := PrimFloat.add xi (PrimFloat.mul t (PrimFloat.sub xi1 xi)) in
    Ok (intersections ++ [intersection_time])
  else Ok intersections.

Definition f64_intersection_loop (x y : list float) (level : float)
    (acc : result (list float)) (i : nat) : result (list float) :=
  intersections <- acc ;; f64_intersection_step x y level intersections i.

Definition f64_find_intersection (x y : list float) (level : float) : result (list float) :=
  fold_left (f64_intersection_loop x y level) (seq 0 (length y - 1)) (Ok []).

(** The pairs that qualify and the time each yields, as for the exact
    embedding. *)
Definition f64_crossing_at (y : list float) (level : float) (i : nat) : bool :=
  f64_crosses level (nth i y PrimFloat.zero) (nth (i + 1) y PrimFloat.zero).

Definition f64_crossing_pairs (y : list float) (level : float) : list nat :=
  filter (f64_crossing_at y level) (seq 0 (length y - 1)).

Definition f64_interpolate (x y : list float) (level : float) (i : nat) : float :=
  PrimFloat.add (nth i x PrimFloat.zero)
    (PrimFloat.mul
       (PrimFloat.div (PrimFloat.sub level (nth i y PrimFloat.zero))
                      (PrimFloat.sub (nth (i + 1) y PrimFloat.zero) (nth i y PrimFloat.zero)))
       (PrimFloat.sub (nth (i + 1) x PrimFloat.zero) (nth i x PrimFloat.zero))).

(** Each time is above the one before it. *)
Fixpoint f64_increasing (x : list float) : bool :=
  match x with
  | [] => true
  | a :: r => match r with [] => true | b :: _ => PrimFloat.ltb a b end && f64_increasing r
  end.

(** Three samples around a narrow peak just above zero. *)
Definition peak_x : list float := [(-1)%float; 0x1.8p-52%float; 1%float].
Definition peak_y : list float := [(-1)%float; 0x1p-60%float; (-1)%float].
Definition peak_level : float := 0x1p-61%float.

(** * Properties *)

(** ** Comparisons, division and indexing *)

Lemma Qltb_lt (a b : Q) : Qltb a b = true <-> a < b.
Proof.
  unfold Qltb. rewrite negb_true_iff. split; intro H.
  - apply Qnot_le_lt. intro Hle. apply Qle_bool_iff in Hle. congruence.
  - destruct (Qle_bool b a) eqn:E; [|reflexivity].
    apply Qle_bool_iff in E. exfalso. exact (Qlt_not_le _ _ H E).
Qed.


Lemma crosses_spec (level a b : Q) :
  crosses level a b = true <->
  (level < a /\ b < level) \/ (a < level /\ level < b).
Proof.
  unfold crosses. rewrite orb_true_iff, !andb_true_iff, !Qltb_lt. tauto.
Qed.

Lemma crosses_denominator (level a b : Q) :
  crosses level a b = true -> ~ b - a == 0.
Proof.
  rewrite crosses_spec. intros [[H1 H2]|[H1 H2]] H0; lra.
Qed.

Lemma crosses_touching (level a b : Q) :
  a == level \/ b == level -> crosses level a b = false.
Proof.
  intros H. destruct (crosses level a b) eqn:C; [|reflexivity].
  apply crosses_spec in C. exfalso. destruct H as [H|H], C as [[H1 H2]|[H1 H2]]; lra.
Qed.

Lemma checked_div_ok (a b : Q) : ~ b == 0 -> checked_div a b = Ok (a / b).
Proof.
  intros Hb. unfold checked_div. destruct (Qeq_bool b 0) eqn:E; [|reflexivity].
  apply Qeq_bool_iff in E. contradiction.
Qed.

Lemma index_nth (l : list Q) (i : nat) :
  (i < length l)%nat -> index l i = Ok (nth i l 0).
Proof.
  intros H. unfold index. rewrite (nth_error_nth' l 0 H). reflexivity.
Qed.

Lemma index_ok (l : list Q) (i : nat) (v : Q) :
  index l i = Ok v -> (i < length l)%nat /\ v = nth i l 0.
Proof.
  unfold index. destruct (nth_error l i) eqn:E; [|discriminate].
  intros H. injection H as <-. split.
  - apply nth_error_Some. congruence.
  - symmetry. apply nth_error_nth. exact E.
Qed.

Lemma index_err (l : list Q) (i : nat) (e : exn) :
  index l i = Err e -> e = IndexError.
Proof.
  unfold index. destruct (nth_error l i); [discriminate|]. congruence.
Qed.

(** ** The crossing finder *)

Section Crossings.

Variables (x y : list Q) (level : Q).

Local Abbreviation body := (intersection_loop x y level).
Local Abbreviation found := (crossing_found x y level).

Lemma found_flat (l : list nat) :
  flat_map found l = map (interpolate x y level) (filter (crossing_at y level) l).
Proof.
  induction l as [|i l IH]; simpl; [reflexivity|].
  unfold crossing_found at 1. destruct (crossing_at y level i); simpl; now rewrite IH.
Qed.

(** One iteration either appends what the pair yields or fails on an
    index of [x]; it appends whenever [x] reaches index [i + 1]. *)
Lemma intersection_step_cases (acc : list Q) (i : nat) :
  (i + 1 < length y)%nat ->
  (intersection_step x y level acc i = Ok (acc ++ found i) \/
   intersection_step x y level acc i = Err IndexError) /\
  ((i + 1 < length x)%nat -> intersection_step x y level acc i = Ok (acc ++ found i)).
Proof.
  intros Hi. unfold intersection_step, crossing_found, crossing_at.
  rewrite (index_nth y i) by lia. rewrite (index_nth y (i + 1)) by lia. simpl.
  destruct (crosses level (nth i y 0) (nth (i + 1) y 0)) eqn:C.
  - rewrite (checked_div_ok _ _ (crosses_denominator _ _ _ C)). simpl. split.
    + destruct (index x i) as [xi|e] eqn:E1; simpl.
      2:{ right. now rewrite (index_err _ _ _ E1). }
      destruct (index x (i + 1)) as [xi1|e] eqn:E2; simpl.
      2:{ right. now rewrite (index_err _ _ _ E2). }
      left. apply index_ok in E1, E2. destruct E1 as [_ ->], E2 as [_ ->].
      reflexivity.
    + intros Hx. rewrite (index_nth x i) by lia.
      rewrite (index_nth x (i + 1)) by lia. reflexivity.
  - rewrite app_nil_r. split; [left|intros _]; reflexivity.
Qed.

Lemma body_failed (l : list nat) (e : exn) : fold_left body l (Err e) = Err e.
Proof. induction l as [|i l IH]; simpl; [reflexivity|exact IH]. Qed.

Lemma loop_cases (l : list nat) (acc : list Q) :
  (forall i, In i l -> (i + 1 < length y)%nat) ->
  (fold_left body l (Ok acc) = Ok (acc ++ flat_map found l) \/
   fold_left body l (Ok acc) = Err IndexError) /\
  ((length y <= length x)%nat ->
   fold_left body l (Ok acc) = Ok (acc ++ flat_map found l)).
Proof.
  revert acc. induction l as [|i l IH]; intros acc Hl; simpl.
  - rewrite app_nil_r. split; [left|intros _]; reflexivity.
  - assert (Hi : (i + 1 < length y)%nat) by (apply Hl; now left).
    destruct (intersection_step_cases acc i Hi) as [Hstep Htot].
    assert (Hl' : forall j, In j l -> (j + 1 < length y)%nat)
      by (intros j Hj; apply Hl; now right).
    split.
    + destruct Hstep as [-> | ->].
      * rewrite app_assoc. apply (proj1 (IH _ Hl')).
      * right. apply body_failed.
    + intros Hlen. rewrite Htot by lia. rewrite app_assoc.
      apply (proj2 (IH _ Hl')). exact Hlen.
Qed.

Lemma range_in_bounds (i : nat) :
  In i (seq 0 (length y - 1)) -> (i + 1 < length y)%nat.
Proof. rewrite in_seq. lia. Qed.

(** Whatever list the crossing finder returns is the interpolation
    over the qualifying pairs, in the order of the pairs. *)
Lemma find_intersection_returns (l : list Q) :
  find_intersection x y level = Ok l ->
  l = map (interpolate x y level) (crossing_pairs y level).
Proof.
  unfold find_intersection, crossing_pairs.
  destruct (proj1 (loop_cases (seq 0 (length y - 1)) [] range_in_bounds)) as [H|H];
    rewrite H; [|discriminate].
  simpl. rewrite found_flat. congruence.
Qed.

(** It does return when the time base is as long as the channel. *)
Lemma find_intersection_total :
  (length y <= length x)%nat ->
  find_intersection x y level = Ok (map (interpolate x y level) (crossing_pairs y level)).
Proof.
  intros Hlen. unfold find_intersection, crossing_pairs. fold body.
  rewrite (proj2 (loop_cases (seq 0 (length y - 1)) [] range_in_bounds) Hlen).
  simpl. now rewrite found_flat.
Qed.

Lemma find_intersection_failure (e : exn) :
  find_intersection x y level = Err e -> e = IndexError.
Proof.
  unfold find_intersection.
  destruct (proj1 (loop_cases (seq 0 (length y - 1)) [] range_in_bounds)) as [H|H];
    rewrite H; congruence.
Qed.

End Crossings.

Lemma crossing_pairs_spec (y : list Q) (level : Q) (i : nat) :
  In i (crossing_pairs y level) <->
  (i + 1 < length y)%nat /\
  ((level < nth i y 0 /\ nth (i + 1) y 0 < level) \/
   (nth i y 0 < level /\ level < nth (i + 1) y 0)).
Proof.
  unfold crossing_pairs, crossing_at.
  rewrite filter_In, in_seq, crosses_spec. intuition lia.
Qed.

Lemma crossing_pairs_NoDup (y : list Q) (level : Q) : NoDup (crossing_pairs y level).
Proof. apply NoDup_filter, seq_NoDup. Qed.

(** ** Order of the crossings *)

Lemma seq_sorted (a n : nat) : StronglySorted lt (seq a n).
Proof.
  revert a. induction n as [|n IH]; intros a; cbn [seq]; constructor.
  - apply IH.
  - apply Forall_forall. intros i Hi. apply in_seq in Hi. lia.
Qed.

Lemma filter_sorted (f : nat -> bool) (l : list nat) :
  StronglySorted lt l -> StronglySorted lt (filter f l).
Proof.
  induction 1 as [|i l Hs IH Hall]; cbn [filter]; [constructor|].
  destruct (f i); [|exact IH]. constructor; [exact IH|].
  apply Forall_forall. intros j Hj. apply filter_In in Hj.
  rewrite Forall_forall in Hall. apply Hall. tauto.
Qed.

Lemma crossing_pairs_sorted (y : list Q) (level : Q) :
  StronglySorted lt (crossing_pairs y level).
Proof. apply filter_sorted, seq_sorted. Qed.

(** C7, as the code has it.  On a channel with one sample time for each
    sample, the crossing finder returns a list: one entry for each pair of
    neighbouring samples whose values lie strictly on opposite sides of
    the level, no pair twice, the entries in the order of the pairs (the
    pair of smaller index first), each entry the linear interpolation
    [t[i] + (level - y[i]) / (y[i+1] - y[i]) * (t[i+1] - t[i])] of its
    pair.  Nothing is said of the order of the times themselves. *)
Theorem find_intersection_pairs_in_order (x y : list Q) (level : Q) :
  length x = length y ->
  exists l : list Q,
    find_intersection x y level = Ok l /\
    l = map (fun i => nth i x 0 + (level - nth i y 0) / (nth (i + 1) y 0 - nth i y 0)
                               * (nth (i + 1) x 0 - nth i x 0))
            (crossing_pairs y level) /\
    NoDup (crossing_pairs y level) /\
    StronglySorted lt (crossing_pairs y level) /\
    (forall i, In i (crossing_pairs y level) <->
       (i + 1 < length y)%nat /\
       ((level < nth i y 0 /\ nth (i + 1) y 0 < level) \/
        (nth i y 0 < level /\ level < nth (i + 1) y 0))).
Proof.
  intros Hlen.
  exists (map (interpolate x y level) (crossing_pairs y level)).
  split; [apply find_intersection_total; lia|].
  split; [reflexivity|].
  split; [apply crossing_pairs_NoDup|].
  split; [apply crossing_pairs_sorted|].
  apply crossing_pairs_spec.
Qed.

Lemma find_intersection_pairs_in_order_witness :
  exists l : list Q,
    find_intersection [0; 1; 2; 3] [0; 2; 0; 2] 1 = Ok l /\
    l = map (fun i => nth i [0; 1; 2; 3] 0
                      + (1 - nth i [0; 2; 0; 2] 0)
                        / (nth (i + 1) [0; 2; 0; 2] 0 - nth i [0; 2; 0; 2] 0)
                        * (nth (i + 1) [0; 1; 2; 3] 0 - nth i [0; 1; 2; 3] 0))
            (crossing_pairs [0; 2; 0; 2] 1) /\
    NoDup (crossing_pairs [0; 2; 0; 2] 1) /\
    StronglySorted lt (crossing_pairs [0; 2; 0; 2] 1) /\
    (forall i, In i (crossing_pairs [0; 2; 0; 2] 1) <->
       (i + 1 < length [0; 2; 0; 2])%nat /\
       ((1 < nth i [0; 2; 0; 2] 0 /\ nth (i + 1) [0; 2; 0; 2] 0 < 1) \/
        (nth i [0; 2; 0; 2] 0 < 1 /\ 1 < nth (i + 1) [0; 2; 0; 2] 0))).
Proof.
  apply (find_intersection_pairs_in_order [0; 1; 2; 3] [0; 2; 0; 2] 1).
  reflexivity.
Defined.

(** The same list in binary64: with a time for each sample the crossing
    finder returns the interpolation, rounded as the code rounds it, over
    the qualifying pairs in their order. *)
Lemma f64_index_nth (l : list float) (i : nat) :
  (i < length l)%nat -> f64_index l i = Ok (nth i l PrimFloat.zero).
Proof.
  intros H. unfold f64_index. rewrite (nth_error_nth' l PrimFloat.zero H). reflexivity.
Qed.

Lemma f64_loop_returns (x y : list float) (level : float) (l : list nat) (acc : list float) :
  (length y <= length x)%nat ->
  (forall i, In i l -> (i + 1 < length y)%nat) ->
  fold_left (f64_intersection_loop x y level) l (Ok acc) =
  Ok (acc ++ map (f64_interpolate x y level) (filter (f64_crossing_at y level) l)).
Proof.
  intros Hlen. revert acc. induction l as [|i l IH]; intros acc Hl.
  - simpl. now rewrite app_nil_r.
  - assert (Hi : (i + 1 < length y)%nat) by (apply Hl; now left).
    cbn [fold_left filter]. unfold f64_intersection_loop at 2. cbn [bind].
    unfold f64_intersection_step, f64_crossing_at.
    rewrite (f64_index_nth y i) by lia. rewrite (f64_index_nth y (i + 1)) by lia.
    cbn [bind].
    destruct (f64_crosses level (nth i y PrimFloat.zero) (nth (i + 1) y PrimFloat.zero)).
    + rewrite (f64_index_nth x i) by lia. rewrite (f64_index_nth x (i + 1)) by lia.
      cbn [bind map]. rewrite IH by (intros j Hj; apply Hl; now right).
      now rewrite <- app_assoc.
    + apply IH. intros j Hj. apply Hl. now right.
Qed.

Lemma f64_find_intersection_returns (x y : list float) (level : float) :
  length x = length y ->
  f64_find_intersection x y level =
  Ok (map (f64_interpolate x y level) (f64_crossing_pairs y level)).
Proof.
  intros Hlen. unfold f64_find_intersection, f64_crossing_pairs.
  rewrite (f64_loop_returns x y level _ []); [reflexivity|lia|].
  intros i Hi. apply in_seq in Hi. lia.
Qed.

(** C7 as stated fails.  The three sample times [peak_x] strictly
    increase, and the channel [peak_y] crosses [peak_level] upwards in its
    first pair and downwards in its second.  In binary64 the two
    interpolated times come out in descending order (about 4.44e-16, then
    about 3.34e-16): the first, rounded, lies above the sample time
    [1.5 * 2^-52] that ends its pair. *)
Lemma crossings_descend_in_binary64 :
  f64_increasing peak_x = true /\
  length peak_x = length peak_y /\
  f64_crossing_pairs peak_y peak_level = [0%nat; 1%nat] /\
  exists first second : float,
    f64_find_intersection peak_x peak_y peak_level = Ok [first; second] /\
    PrimFloat.ltb second first = true /\
    PrimFloat.ltb (nth 1 peak_x PrimFloat.zero) first = true.
Proof.
  split; [vm_compute; reflexivity|]. split; [reflexivity|].
  split; [vm_compute; reflexivity|].
  eexists. eexists. split; [vm_compute; reflexivity|].
  split; vm_compute; reflexivity.
Qed.

(** The crossings of that channel, evaluated. *)
Example find_intersection_zigzag :
  find_intersection [0; 1; 2; 3] [0; 2; 0; 2] 1 = Ok [0 + 1 / 2 * 1; 1 + (-1) / (-2) * 1; 2 + 1 / 2 * 1].
Proof. vm_compute. reflexivity. Qed.

Lemma step_never_divides_by_zero (x y : list Q) (level : Q) (acc : list Q) (i : nat) :
  intersection_step x y level acc i <> Err ZeroDivisionError.
Proof.
  unfold intersection_step.
  destruct (index y i) as [yi|e] eqn:E1; simpl;
    [|rewrite (index_err _ _ _ E1); discriminate].
  destruct (index y (i + 1)) as [yi1|e] eqn:E2; simpl;
    [|rewrite (index_err _ _ _ E2); discriminate].
  destruct (crosses level yi yi1) eqn:C; [|discriminate].
  rewrite (checked_div_ok _ _ (crosses_denominator _ _ _ C)). simpl.
  destruct (index x i) as [xi|e] eqn:E3; simpl;
    [|rewrite (index_err _ _ _ E3); discriminate].
  destruct (index x (i + 1)) as [xi1|e] eqn:E4; simpl;
    [|rewrite (index_err _ _ _ E4); discriminate].
  discriminate.
Qed.

Lemma loop_never_divides_by_zero (x y : list Q) (level : Q) (l : list nat) (r : result (list Q)) :
  r <> Err ZeroDivisionError ->
  fold_left (intersection_loop x y level) l r <> Err ZeroDivisionError.
Proof.
  revert r. induction l as [|i l IH]; intros r Hr; simpl; [exact Hr|].
  apply IH. destruct r as [acc|e]; simpl; [|exact Hr].
  apply step_never_divides_by_zero.
Qed.

(** C8.  The crossing finder never divides by zero, on any input: a pair
    that qualifies has values strictly on opposite sides of the level, so
    its denominator [y[i+1] - y[i]] is not zero and the division is
    carried out; a pair whose denominator is zero does not qualify and
    reports no crossing. *)
Theorem find_intersection_never_divides_by_zero (x y : list Q) (level : Q) :
  find_intersection x y level <> Err ZeroDivisionError /\
  (forall i, nth (i + 1) y 0 - nth i y 0 == 0 ->
     crossing_at y level i = false /\ ~ In i (crossing_pairs y level)) /\
  (forall a b, crosses level a b = true ->
     ~ b - a == 0 /\ checked_div (level - a) (b - a) = Ok ((level - a) / (b - a))) /\
  (forall l, find_intersection x y level = Ok l ->
     length l = length (crossing_pairs y level)).
Proof.
  split; [|split; [|split]].
  - unfold find_intersection. apply loop_never_divides_by_zero. discriminate.
  - intros i Hd.
    assert (C : crossing_at y level i = false).
    { unfold crossing_at. destruct (crosses level (nth i y 0) (nth (i + 1) y 0)) eqn:C;
        [|reflexivity].
      exfalso. exact (crosses_denominator _ _ _ C Hd). }
    split; [exact C|]. unfold crossing_pairs. rewrite filter_In. intros [_ H]. congruence.
  - intros a b C. pose proof (crosses_denominator _ _ _ C) as Hd.
    split; [exact Hd|now apply checked_div_ok].
  - intros l H. rewrite (find_intersection_returns _ _ _ _ H). apply length_map.
Qed.

(** C10.  A sample whose value equals the level makes neither of the two
    pairs it belongs to a crossing: both comparisons of line 30 are strict,
    so the list returned has no entry for the pair before it nor for the
    pair after it; and a channel of fewer than two samples yields the empty
    list, whatever the time base. *)
Theorem find_intersection_touching (x y : list Q) (level : Q) :
  (forall l, find_intersection x y level = Ok l ->
     l = map (interpolate x y level) (crossing_pairs y level)) /\
  (forall k i, nth k y 0 == level -> i = k \/ (i + 1)%nat = k ->
     crossing_at y level i = false /\ ~ In i (crossing_pairs y level)) /\
  ((length y < 2)%nat -> find_intersection x y level = Ok []).
Proof.
  split; [|split].
  - apply find_intersection_returns.
  - intros k i Hk Hi.
    assert (C : crossing_at y level i = false).
    { unfold crossing_at. apply crosses_touching.
      destruct Hi as [->| <-]; [left|right]; exact Hk. }
    split; [exact C|]. unfold crossing_pairs. rewrite filter_In. intros [_ H]. congruence.
  - intros Hy. unfold find_intersection.
    replace (length y - 1)%nat with 0%nat by lia. reflexivity.
Qed.

(** A channel that touches the level at its middle sample and stays on one
    side reports nothing; one that passes through it on a sample also
    reports nothing. *)
Example find_intersection_touch_examples :
  find_intersection [0; 1; 2] [2; 1; 2] 1 = Ok [] /\
  find_intersection [0; 1; 2] [0; 1; 2] 1 = Ok [] /\
  find_intersection [0] [5] 1 = Ok [] /\
  find_intersection [] [] 1 = Ok [].
Proof. vm_compute. repeat split. Qed.

(** ** The level fit *)

Lemma Qlen_S (n : nat) : Qlen (S n) == Qlen n + 1.
Proof.
  unfold Qlen. rewrite Nat2Z.inj_succ. unfold Z.succ.
  rewrite inject_Z_plus. reflexivity.
Qed.

Lemma Qlen_pos (n : nat) : (0 < n)%nat -> 0 < Qlen n.
Proof.
  intros H. unfold Qlen. replace 0 with (inject_Z 0) by reflexivity.
  rewrite <- Zlt_Qlt. lia.
Qed.

Lemma Qsquare_nonneg (q : Q) : 0 <= q * q.
Proof.
  destruct (Qlt_le_dec q 0) as [H|H].
  - setoid_replace (q * q) with ((- q) * (- q)) by ring.
    apply Qmult_le_0_compat; lra.
  - apply Qmult_le_0_compat; lra.
Qed.

Lemma Qsum_cons (a : Q) (l : list Q) : Qsum (a :: l) = a + Qsum l.
Proof. reflexivity. Qed.

(** The residual sum of squares of the flat model is a parabola in [a]. *)
Lemma flat_line_residuals (xs ys : list Q) (a : Q) :
  length xs = length ys ->
  sum_sq_residuals flat_line xs ys a ==
  Qlen (length ys) * a * a - 2 * a * Qsum ys + Qsum (map (fun v => v * v) ys).
Proof.
  unfold sum_sq_residuals, flat_line. revert ys.
  induction xs as [|x0 xs IH]; intros [|y0 ys] Hlen; try discriminate.
  - unfold Qlen. cbn. ring.
  - cbn [map combine length fst snd]. rewrite !Qsum_cons, Qlen_S.
    rewrite (IH ys) by (simpl in Hlen; lia). ring.
Qed.

Lemma flat_line_normal_JtJ (xs : list Q) :
  Qsum (map (fun j => j * j)
         (map (fun p => fst p - snd p) (combine (flat_line xs 1) (flat_line xs 0))))
  == Qlen (length xs).
Proof.
  unfold flat_line. induction xs as [|x0 xs IH].
  - reflexivity.
  - cbn [map combine length fst snd]. rewrite Qsum_cons, Qlen_S, IH. ring.
Qed.

Lemma flat_line_normal_Jty (xs ys : list Q) :
  length xs = length ys ->
  Qsum (map (fun p => fst p * snd p)
         (combine (map (fun p => fst p - snd p) (combine (flat_line xs 1) (flat_line xs 0)))
                  (map (fun p => fst p - snd p) (combine ys (flat_line xs 0)))))
  == Qsum ys.
Proof.
  unfold flat_line. revert ys.
  induction xs as [|x0 xs IH]; intros [|y0 ys] Hlen; try discriminate.
  - reflexivity.
  - cbn [map combine length fst snd]. rewrite !Qsum_cons.
    rewrite (IH ys) by (simpl in Hlen; lia). ring.
Qed.

Lemma mean_times_length (ys : list Q) :
  ys <> [] -> Qlen (length ys) * mean ys == Qsum ys.
Proof.
  intros Hne. unfold mean.
  assert (0 < Qlen (length ys)) by (apply Qlen_pos; destruct ys; [congruence|simpl; lia]).
  field. lra.
Qed.

(** In exact arithmetic the fit of the flat model returns the mean. *)
Lemma curve_fit_flat_line (times values : list Q) :
  values <> [] ->
  length times = length values ->
  exists a, curve_fit flat_line times values = Ok a /\ a == mean values.
Proof.
  intros Hne Hlen.
  assert (Hn : 0 < Qlen (length values))
    by (apply Qlen_pos; destruct values; [congruence|simpl; lia]).
  unfold curve_fit. destruct values as [|v0 vs] eqn:Ev; [congruence|].
  rewrite <- Ev in *. cbv zeta.
  pose proof (flat_line_normal_JtJ times) as HJ.
  pose proof (flat_line_normal_Jty times values Hlen) as Hy.
  rewrite Hlen in HJ.
  set (JtJ := Qsum (map (fun j => j * j) _)) in *.
  set (Jty := Qsum (map (fun p => fst p * snd p) _)) in *.
  assert (Hnz : ~ JtJ == 0) by lra.
  destruct (Qeq_bool JtJ 0) eqn:Ez; [apply Qeq_bool_iff in Ez; contradiction|].
  exists (Jty / JtJ). split; [reflexivity|].
  unfold mean. rewrite Hy, HJ. reflexivity.
Qed.

(** In exact arithmetic a level is a least-squares fit of the flat model
    exactly when it is the mean. *)
Lemma least_squares_flat_line (times values : list Q) (a : Q) :
  values <> [] ->
  length times = length values ->
  is_least_squares flat_line times values a <-> a == mean values.
Proof.
  intros Hne Hlen.
  assert (Hn : 0 < Qlen (length values))
    by (apply Qlen_pos; destruct values; [congruence|simpl; lia]).
  pose proof (mean_times_length values Hne) as Hm.
  unfold is_least_squares. split.
  - intros Ha. specialize (Ha (mean values)).
    rewrite !flat_line_residuals in Ha by exact Hlen.
    set (n := Qlen (length values)) in *. set (m := mean values) in *.
    set (s := Qsum values) in *.
    assert (E1 : n * a * m == a * s) by (rewrite <- Hm; ring).
    assert (E2 : n * m * m == m * s) by (rewrite <- Hm; ring).
    assert (Hsq : n * ((a - m) * (a - m)) <= 0) by nra.
    destruct (Q_dec a m) as [[Hlt|Hgt]|Heq]; [exfalso|exfalso|exact Heq].
    + assert (0 < (m - a) * (m - a)) by (apply Qmult_lt_0_compat; lra).
      assert (0 < n * ((m - a) * (m - a))) by (apply Qmult_lt_0_compat; lra).
      nra.
    + assert (0 < (a - m) * (a - m)) by (apply Qmult_lt_0_compat; lra).
      assert (0 < n * ((a - m) * (a - m))) by (apply Qmult_lt_0_compat; lra).
      nra.
  - intros Ha b.
    rewrite !flat_line_residuals by exact Hlen.
    set (n := Qlen (length values)) in *. set (m := mean values) in *.
    set (s := Qsum values) in *.
    assert (E1 : n * b * m == b * s) by (rewrite <- Hm; ring).
    assert (E2 : n * m * m == m * s) by (rewrite <- Hm; ring).
    assert (E3 : n * a * a == n * m * m) by (rewrite Ha; ring).
    assert (E4 : a * s == m * s) by (rewrite Ha; ring).
    assert (0 <= (b - m) * (b - m)) by apply Qsquare_nonneg.
    assert (0 <= n * ((b - m) * (b - m))) by (apply Qmult_le_0_compat; lra).
    nra.
Qed.

(** The fit of that partition, evaluated: the level is 3. *)
Example curve_fit_three_values :
  exists a, curve_fit flat_line [0; 1; 2] [1; 2; 6] = Ok a /\ a == 3 /\ mean [1; 2; 6] == 3.
Proof. eexists. split; [vm_compute; reflexivity|]. split; reflexivity. Qed.

(** ** The edge scans *)

Lemma pair_mask_nth (p q : Q -> bool) (c : list Q) (i : nat) :
  nth i (mask_and (map p (removelast c)) (map q (tl c))) false =
  if (i + 1 <? length c)%nat then p (nth i c 0) && q (nth (i + 1) c 0) else false.
Proof.
  revert i. induction c as [|a c IH]; intros i.
  - destruct i; reflexivity.
  - destruct c as [|b r].
    + destruct i; reflexivity.
    + change (removelast (a :: b :: r)) with (a :: removelast (b :: r)).
      change (tl (a :: b :: r)) with (b :: r).
      change (tl (b :: r)) with r in IH.
      destruct i as [|i]; [reflexivity|].
      cbn [map mask_and combine nth]. unfold mask_and in IH |- *.
      cbn [map combine nth fst snd]. rewrite IH.
      change (S i + 1 <? length (a :: b :: r))%nat with (i + 1 <? length (b :: r))%nat.
      reflexivity.
Qed.

Lemma first_where (mask : list bool) (a : nat) :
  match first_of (where_from a mask) with
  | Ok j => exists k, j = (a + k)%nat /\ nth k mask false = true /\
                      forall k', (k' < k)%nat -> nth k' mask false = false
  | Err e => e = IndexError /\ forall k, nth k mask false = false
  end.
Proof.
  revert a. induction mask as [|b mask IH]; intros a; simpl.
  - split; [reflexivity|]. intros [|k]; reflexivity.
  - destruct b; simpl.
    + exists 0%nat. split; [lia|]. split; [reflexivity|]. intros k' Hk'. lia.
    + specialize (IH (S a)). destruct (first_of (where_from (S a) mask)) as [j|e].
      * destruct IH as (k & -> & Hk & Hmin). exists (S k).
        split; [lia|]. split; [exact Hk|].
        intros [|k'] Hk'; [reflexivity|]. apply Hmin. lia.
      * destruct IH as [-> Hall]. split; [reflexivity|].
        intros [|k]; [reflexivity|apply Hall].
Qed.

Lemma rising_mask_true (c : list Q) (thr : Q) (i : nat) :
  nth i (mask_and (lt_mask (removelast c) thr) (gt_mask (tl c) thr)) false = true
  <-> rises_at c thr i.
Proof.
  unfold lt_mask, gt_mask, rises_at.
  rewrite (pair_mask_nth (fun v => Qltb v thr) (fun v => Qltb thr v)).
  destruct (i + 1 <? length c)%nat eqn:E.
  - apply Nat.ltb_lt in E. rewrite andb_true_iff, !Qltb_lt. tauto.
  - apply Nat.ltb_ge in E. split; [discriminate|]. intros [H _]. lia.
Qed.

Lemma falling_mask_true (c : list Q) (thr : Q) (i : nat) :
  nth i (mask_and (gt_mask (removelast c) thr) (lt_mask (tl c) thr)) false = true
  <-> falls_at c thr i.
Proof.
  unfold lt_mask, gt_mask, falls_at.
  rewrite (pair_mask_nth (fun v => Qltb thr v) (fun v => Qltb v thr)).
  destruct (i + 1 <? length c)%nat eqn:E.
  - apply Nat.ltb_lt in E. rewrite andb_true_iff, !Qltb_lt. tauto.
  - apply Nat.ltb_ge in E. split; [discriminate|]. intros [H _]. lia.
Qed.

(** The rising scan returns the first index of a rising pair, and raises
    [IndexError] exactly when there is none. *)
Lemma rising_index_spec (c : list Q) (thr : Q) :
  match rising_index c thr with
  | Ok i0 => rises_at c thr i0 /\ forall j, (j < i0)%nat -> ~ rises_at c thr j
  | Err e => e = IndexError /\ forall j, ~ rises_at c thr j
  end.
Proof.
  unfold rising_index, np_where.
  pose proof (first_where (mask_and (lt_mask (removelast c) thr) (gt_mask (tl c) thr)) 0) as H.
  destruct (first_of _) as [j|e].
  - destruct H as (k & -> & Hk & Hmin). simpl. split.
    + now apply rising_mask_true.
    + intros j Hj Hr. apply rising_mask_true in Hr. rewrite Hmin in Hr by exact Hj.
      discriminate.
  - destruct H as [-> Hall]. split; [reflexivity|].
    intros j Hr. apply rising_mask_true in Hr. rewrite Hall in Hr. discriminate.
Qed.

Lemma falling_index_spec (c : list Q) (thr : Q) :
  match falling_index c thr with
  | Ok i0 => falls_at c thr i0 /\ forall j, (j < i0)%nat -> ~ falls_at c thr j
  | Err e => e = IndexError /\ forall j, ~ falls_at c thr j
  end.
Proof.
  unfold falling_index, np_where.
  pose proof (first_where (mask_and (gt_mask (removelast c) thr) (lt_mask (tl c) thr)) 0) as H.
  destruct (first_of _) as [j|e].
  - destruct H as (k & -> & Hk & Hmin). simpl. split.
    + now apply falling_mask_true.
    + intros j Hj Hr. apply falling_mask_true in Hr. rewrite Hmin in Hr by exact Hj.
      discriminate.
  - destruct H as [-> Hall]. split; [reflexivity|].
    intros j Hr. apply falling_mask_true in Hr. rewrite Hall in Hr. discriminate.
Qed.

(** C5, as the code has it.  On a channel in which some pair of
    neighbouring samples passes the threshold in the direction asked for
    (upwards: [c[i] < thr] and [c[i+1] > thr]; downwards the reverse), the
    edge scan returns a time: [time[i0]] for the smallest index [i0] of
    such a pair, which is the time of the earlier sample of that pair. *)
Theorem edge_time_earlier_sample (rising : bool) (time c : list Q) (thr : Q) (i : nat) :
  length time = length c ->
  edge_at rising c thr i ->
  exists i0 : nat,
    (i0 <= i)%nat /\
    edge_at rising c thr i0 /\
    (forall j, (j < i0)%nat -> ~ edge_at rising c thr j) /\
    edge_time rising time c thr = Ok (nth i0 time 0).
Proof.
  intros Hlen Hi. unfold edge_time.
  destruct rising; simpl in *.
  - pose proof (rising_index_spec c thr) as H.
    destruct (rising_index c thr) as [i0|e].
    + destruct H as [Hr Hmin]. exists i0. split.
      * destruct (Nat.le_gt_cases i0 i) as [Hle|Hgt]; [exact Hle|].
        exfalso. exact (Hmin i Hgt Hi).
      * split; [exact Hr|]. split; [exact Hmin|]. simpl.
        apply index_nth. destruct Hr as [Hr _]. lia.
    + exfalso. exact (proj2 H i Hi).
  - pose proof (falling_index_spec c thr) as H.
    destruct (falling_index c thr) as [i0|e].
    + destruct H as [Hr Hmin]. exists i0. split.
      * destruct (Nat.le_gt_cases i0 i) as [Hle|Hgt]; [exact Hle|].
        exfalso. exact (Hmin i Hgt Hi).
      * split; [exact Hr|]. split; [exact Hmin|]. simpl.
        apply index_nth. destruct Hr as [Hr _]. lia.
    + exfalso. exact (proj2 H i Hi).
Qed.

Lemma edge_time_earlier_sample_witness :
  exists i0 : nat,
    (i0 <= 1)%nat /\
    edge_at true [0; 0; 1; 0] (1 # 2) i0 /\
    (forall j, (j < i0)%nat -> ~ edge_at true [0; 0; 1; 0] (1 # 2) j) /\
    edge_time true [0; 1; 2; 3] [0; 0; 1; 0] (1 # 2) = Ok (nth i0 [0; 1; 2; 3] 0).
Proof.
  apply (edge_time_earlier_sample true [0; 1; 2; 3] [0; 0; 1; 0] (1 # 2) 1).
  - reflexivity.
  - unfold edge_at, rises_at. simpl. repeat split. lia.
Defined.

(** C5 as stated fails.  The channel [0, 0, 1, 0] sampled at times
    [0, 1, 2, 3] has midpoint threshold 1/2 and rises through it in the
    pair of samples 1 and 2, and in no earlier pair.  The scan reports
    [time[1] = 1], the earlier sample of the pair, not [time[2] = 2]. *)
Lemma edge_time_not_later_sample :
  np_max [0; 0; 1; 0] = Ok 1 /\ np_min [0; 0; 1; 0] = Ok 0 /\
  edge_at true [0; 0; 1; 0] ((1 + 0) / 2) 1 /\
  ~ edge_at true [0; 0; 1; 0] ((1 + 0) / 2) 0 /\
  edge_time true [0; 1; 2; 3] [0; 0; 1; 0] ((1 + 0) / 2) = Ok 1 /\
  edge_time true [0; 1; 2; 3] [0; 0; 1; 0] ((1 + 0) / 2) <> Ok (nth (1 + 1) [0; 1; 2; 3] 0) /\
  ~ 1 == nth (1 + 1) [0; 1; 2; 3] 0.
Proof.
  split; [reflexivity|]. split; [reflexivity|].
  split; [unfold edge_at, rises_at; simpl; repeat split; lia|].
  split; [unfold edge_at, rises_at; simpl; intros (_ & _ & H); discriminate H|].
  split; [vm_compute; reflexivity|].
  split; [vm_compute; discriminate|].
  simpl. intro H. discriminate H.
Qed.

(** ** Single-record analysis *)

Ltac bind_ok H :=
  match type of H with
  | bind ?r _ = Ok _ =>
    let E := fresh "E" in
    destruct r eqn:E; cbn [bind] in H; [|discriminate H]
  end.

Ltac bind_err H :=
  match type of H with
  | bind ?r _ = Err _ =>
    let E := fresh "E" in
    destruct r eqn:E; cbn [bind] in H
  end.

Lemma savgol_filter_ok (smooth : list Q -> nat -> nat -> list Q) (x c : list Q) :
  savgol_filter smooth x 1511%nat 3%nat = Ok c ->
  c = smooth x 1511%nat 3%nat /\ (1511 <= length x)%nat.
Proof.
  unfold savgol_filter.
  destruct (length x <? 1511)%nat eqn:E; [discriminate|].
  change (1511 <=? 3)%nat with false. cbv iota.
  apply Nat.ltb_ge in E. intros H. injection H as <-. split; [reflexivity|exact E].
Qed.

Lemma savgol_filter_short (smooth : list Q -> nat -> nat -> list Q) (x : list Q) :
  (length x < 1511)%nat ->
  savgol_filter smooth x 1511%nat 3%nat = Err (ValueError WindowTooLong).
Proof.
  intros H. unfold savgol_filter.
  apply Nat.ltb_lt in H. rewrite H. reflexivity.
Qed.

Lemma edge_time_split (rising : bool) (time c : list Q) (thr v : Q) :
  edge_time rising time c thr = Ok v <->
  exists i, (if rising then rising_index c thr else falling_index c thr) = Ok i /\
            index time i = Ok v.
Proof.
  unfold edge_time. split.
  - intros H. bind_ok H. eauto.
  - intros (i & -> & H). exact H.
Qed.

(** What lines 49-77 have established when they complete. *)
Lemma main_analysis_prefix_ok (smooth : list Q -> nat -> nat -> list Q)
    (data : DataFrame) (s : stage) :
  main_analysis_prefix smooth data = Ok s ->
  exists CH1 CH1_max CH1_min,
    savgol_filter smooth (map CH1_V data) 1511%nat 3%nat = Ok CH1 /\
    np_max CH1 = Ok CH1_max /\ np_min CH1 = Ok CH1_min /\
    edge_time true (map Time_s data) CH1 ((CH1_max + CH1_min) / 2) = Ok (CH1_left_time s) /\
    edge_time false (map Time_s data) CH1 ((CH1_max + CH1_min) / 2) = Ok (CH1_right_time s) /\
    time s = map Time_s data /\
    CH2 s = smooth (map CH2_V data) 1511%nat 3%nat /\
    (1511 <= length data)%nat /\
    edge_time false (time s) (CH2 s) (CH2_high_level s) = Ok (CH2_fall_start_time s) /\
    find_intersection (time s) (CH2 s) (CH2_low_level s) = Ok (low_intersections s).
Proof.
  unfold main_analysis_prefix. cbv zeta. intros H.
  do 18 bind_ok H. injection H as <-. cbn [time CH2 CH1_left_time CH1_right_time
    CH2_high_level CH2_low_level CH2_fall_start_time low_intersections].
  match goal with
  | E1 : savgol_filter _ (map CH1_V data) _ _ = Ok ?c1,
    E2 : np_max ?c1 = Ok ?mx, E3 : np_min ?c1 = Ok ?mn |- _ => exists c1, mx, mn
  end.
  match goal with E : savgol_filter _ (map CH2_V data) _ _ = Ok ?c |- _ =>
    destruct (savgol_filter_ok _ _ _ E) as [-> Hlen] end.
  rewrite length_map in Hlen.
  repeat split; try assumption.
  - apply edge_time_split. eauto.
  - apply edge_time_split. eauto.
Qed.

(** *** Which exceptions the stages raise *)

Lemma savgol_filter_err (smooth : list Q -> nat -> nat -> list Q) (x : list Q) (e : exn) :
  savgol_filter smooth x 1511%nat 3%nat = Err e -> e = ValueError WindowTooLong.
Proof.
  unfold savgol_filter. destruct (length x <? 1511)%nat; [congruence|].
  change (1511 <=? 3)%nat with false. cbv iota. discriminate.
Qed.

Lemma np_max_err (l : list Q) (e : exn) : np_max l = Err e -> e = ValueError EmptyReduction.
Proof. destruct l; simpl; congruence. Qed.

Lemma np_min_err (l : list Q) (e : exn) : np_min l = Err e -> e = ValueError EmptyReduction.
Proof. destruct l; simpl; congruence. Qed.

Lemma first_of_err (idx : list nat) (e : exn) : first_of idx = Err e -> e = IndexError.
Proof. destruct idx; simpl; congruence. Qed.

Lemma rising_index_err (c : list Q) (thr : Q) (e : exn) :
  rising_index c thr = Err e -> e = IndexError.
Proof. apply first_of_err. Qed.

Lemma falling_index_err (c : list Q) (thr : Q) (e : exn) :
  falling_index c thr = Err e -> e = IndexError.
Proof. apply first_of_err. Qed.

Lemma edge_time_err (rising : bool) (time c : list Q) (thr : Q) (e : exn) :
  edge_time rising time c thr = Err e -> e = IndexError.
Proof.
  unfold edge_time. intros H. bind_err H.
  - now apply index_err in H.
  - injection H as <-. destruct rising; [now apply rising_index_err in E|now apply falling_index_err in E].
Qed.

Lemma take_err (a : list Q) (idx : list nat) (e : exn) :
  take a idx = Err e -> e = IndexError.
Proof.
  induction idx as [|i idx IH]; simpl; [discriminate|].
  intros H. bind_err H.
  - bind_err H; [discriminate|]. injection H as <-. now apply IH.
  - injection H as <-. now apply index_err in E.
Qed.

Lemma curve_fit_err (f : list Q -> Q -> list Q) (xdata ydata : list Q) (e : exn) :
  curve_fit f xdata ydata = Err e -> e = ValueError EmptyData.
Proof.
  unfold curve_fit. destruct ydata; [congruence|].
  cbv zeta. destruct (Qeq_bool _ 0); discriminate.
Qed.

Ltac classify E :=
  first [ apply savgol_filter_err in E | apply np_max_err in E | apply np_min_err in E
        | apply rising_index_err in E | apply falling_index_err in E
        | apply index_err in E | apply take_err in E | apply curve_fit_err in E
        | apply edge_time_err in E | apply find_intersection_failure in E ];
  subst; unfold early_failure; tauto.

Lemma main_analysis_prefix_err (smooth : list Q -> nat -> nat -> list Q)
    (data : DataFrame) (e : exn) :
  main_analysis_prefix smooth data = Err e -> early_failure e.
Proof.
  unfold main_analysis_prefix. cbv zeta. intros H.
  do 18 (match type of H with
         | bind ?r _ = Err _ =>
           let E := fresh "E" in
           destruct r eqn:E; cbn [bind] in H; [clear E|injection H as <-; classify E]
         end).
  discriminate H.
Qed.

Lemma main_analysis_suffix_err (s : stage) (e : exn) :
  main_analysis_suffix s = Err e ->
  (e = ValueError LowCrossingsNotFound /\ (length (low_intersections s) < 2)%nat) \/
  (e = IndexError /\ (2 <= length (low_intersections s))%nat).
Proof.
  unfold main_analysis_suffix.
  destruct (low_intersections s) as [|c1 [|c2 rest]]; simpl.
  - intros H. injection H as <-. left. split; [reflexivity|lia].
  - intros H. injection H as <-. left. split; [reflexivity|lia].
  - cbv zeta. intros H. bind_err H; [discriminate|].
    injection H as <-. apply edge_time_err in E. right. split; [exact E|lia].
Qed.

(** C4, as the code has it.  Single-record analysis raises the
    [ValueError] of line 83 exactly when lines 49-77 complete and find
    fewer than two low-level crossings; the crossings counted are those of
    the smoothed response channel; with two crossings or more (three
    included) the analysis goes on with the first two; and an analysis
    that fails returns no outcome. *)
Theorem low_crossings_failure (smooth : list Q -> nat -> nat -> list Q) (data : DataFrame) :
  (main_analysis smooth data = Err (ValueError LowCrossingsNotFound) <->
   exists n, low_crossing_count smooth data = Ok n /\ (n < 2)%nat) /\
  (forall s, main_analysis_prefix smooth data = Ok s ->
     low_crossing_count smooth data =
     Ok (length (crossing_pairs (smooth (map CH2_V data) 1511%nat 3%nat) (CH2_low_level s)))) /\
  (forall s first second rest,
     main_analysis_prefix smooth data = Ok s ->
     low_intersections s = first :: second :: rest ->
     main_analysis smooth data =
     (CH2_rise_end_time <- edge_time true (time s) (CH2 s) (CH2_high_level s) ;;
      Ok {| CH2_rise_duration := CH2_rise_end_time - first;
            CH2_fall_duration := second - CH2_fall_start_time s;
            rise_response_time := first - CH1_left_time s;
            fall_response_time := CH2_fall_start_time s - CH1_right_time s |})) /\
  (forall e, main_analysis smooth data = Err e ->
     forall o, main_analysis smooth data <> Ok o).
Proof.
  unfold main_analysis, low_crossing_count.
  split; [|split; [|split]].
  - destruct (main_analysis_prefix smooth data) as [s|e] eqn:E; cbn [bind].
    + split.
      * intros H. apply main_analysis_suffix_err in H.
        destruct H as [[_ Hn]|[H _]]; [|discriminate H].
        exists (length (low_intersections s)). split; [reflexivity|exact Hn].
      * intros (n & Hn & Hlt). injection Hn as <-.
        unfold main_analysis_suffix.
        destruct (low_intersections s) as [|c1 [|c2 rest]]; simpl in Hlt;
          [reflexivity|reflexivity|lia].
    + split.
      * intros H. injection H as ->. apply main_analysis_prefix_err in E.
        destruct E as [E|[E|[E|E]]]; discriminate E.
      * intros (n & Hn & _). discriminate Hn.
  - intros s Hs. rewrite Hs. cbn [bind].
    destruct (main_analysis_prefix_ok _ _ _ Hs)
      as (CH1 & mx & mn & _ & _ & _ & _ & _ & _ & HCH2 & _ & _ & Hfind).
    rewrite (find_intersection_returns _ _ _ _ Hfind), length_map, HCH2. reflexivity.
  - intros s c1 c2 rest Hs Hl. rewrite Hs. cbn [bind].
    unfold main_analysis_suffix. rewrite Hl. reflexivity.
  - intros e H o. rewrite H. discriminate.
Qed.

(** C4 as stated fails.  The capture [wiggle_capture] has three low-level
    crossings on its response channel (which the kernel leaves as it is,
    so raw and smoothed channel agree), a number that is not two, and the
    analysis returns an outcome. *)
Lemma three_crossings_accepted :
  low_crossing_count keep wiggle_capture = Ok 3%nat /\
  (s <- main_analysis_prefix keep wiggle_capture ;;
   Ok (length (crossing_pairs (map CH2_V wiggle_capture) (CH2_low_level s)))) = Ok 3%nat /\
  is_ok (main_analysis keep wiggle_capture) = true /\
  main_analysis keep wiggle_capture <> Err (ValueError LowCrossingsNotFound).
Proof.
  split; [vm_compute; reflexivity|].
  split; [vm_compute; reflexivity|].
  split; [vm_compute; reflexivity|].
  intros H.
  assert (E : is_ok (main_analysis keep wiggle_capture) = true) by (vm_compute; reflexivity).
  rewrite H in E. discriminate E.
Qed.

(** What an outcome is made of, for every capture the analysis accepts. *)
Lemma main_analysis_outcome (smooth : list Q -> nat -> nat -> list Q)
    (data : DataFrame) (s : stage) (o : outcome) :
  main_analysis_prefix smooth data = Ok s ->
  main_analysis smooth data = Ok o ->
  exists first second rest CH2_rise_end_time,
    low_intersections s = first :: second :: rest /\
    edge_time true (time s) (CH2 s) (CH2_high_level s) = Ok CH2_rise_end_time /\
    CH2_rise_duration o = CH2_rise_end_time - first /\
    CH2_fall_duration o = second - CH2_fall_start_time s /\
    rise_response_time o = first - CH1_left_time s /\
    fall_response_time o = CH2_fall_start_time s - CH1_right_time s.
Proof.
  intros Hs Ho. unfold main_analysis in Ho. rewrite Hs in Ho. cbn [bind] in Ho.
  unfold main_analysis_suffix in Ho.
  destruct (low_intersections s) as [|c1 [|c2 rest]]; try discriminate Ho.
  cbv zeta in Ho. bind_ok Ho. injection Ho as <-.
  exists c1, c2, rest, a. repeat split; reflexivity || assumption.
Qed.

(** C3 on the capture [good_capture], whose response falls from its high
    level, stays low and returns.  The two low-level crossings are at
    275789/617 (about 447, the end of the fall) and 655881/617 (about 1063,
    the start of the rise); the fall starts at 107 and the trigger rises at
    221.  The fall duration returned is the second crossing minus the start
    of the fall, and the rise response time is the first crossing minus the
    trigger's rise: the first crossing is used as the start of the rise and
    the second as the end of the fall. *)
Example main_analysis_swaps_crossings :
  (s <- main_analysis_prefix keep good_capture ;; Ok (readings_of s)) =
    Ok {| trigger_rise := 221; trigger_fall := 1288;
          high_level := 2516923 # 6; low_level := 94874;
          fall_start := 107;
          crossings := [275789 # 617; 655881 # 617] |} /\
  (o <- main_analysis keep good_capture ;; Ok (reduced o)) =
    Ok {| CH2_rise_duration := 589245 # 617;
          CH2_fall_duration := 589862 # 617;
          rise_response_time := 139432 # 617;
          fall_response_time := -1181 |} /\
  589862 # 617 == (655881 # 617) - 107 /\
  139432 # 617 == (275789 # 617) - 221 /\
  ~ 589862 # 617 == (275789 # 617) - 107 /\
  ~ 139432 # 617 == (655881 # 617) - 221.
Proof.
  split; [vm_compute; reflexivity|].
  split; [vm_compute; reflexivity|].
  repeat split; try reflexivity; intro H; discriminate H.
Qed.

Lemma take_length (a : list Q) (idx : list nat) (l : list Q) :
  take a idx = Ok l -> length l = length idx.
Proof.
  revert l. induction idx as [|i idx IH]; simpl; intros l H.
  - injection H as <-. reflexivity.
  - bind_ok H. bind_ok H. injection H as <-. simpl. f_equal. now apply IH.
Qed.

(** The trigger of [good_capture] rises through its midpoint between the
    samples 221 and 222, and the analysis reads the time of sample 221. *)
Example good_capture_trigger_edge :
  np_max (map CH1_V good_capture) = Ok 0 /\
  np_min (map CH1_V good_capture) = Ok (-570025) /\
  rising_index (map CH1_V good_capture) ((0 + -570025) / 2) = Ok 221%nat /\
  (s <- main_analysis_prefix keep good_capture ;; Ok (CH1_left_time s)) = Ok 221 /\
  nth 221 (map Time_s good_capture) 0 = 221 /\
  nth 222 (map Time_s good_capture) 0 = 222.
Proof. repeat (match goal with |- _ /\ _ => split end); vm_compute; reflexivity. Qed.

(** ** The batch loop *)

Section BatchLoop.

Variable smooth : list Q -> nat -> nat -> list Q.
Variable listdir : string -> list string.
Variable parse_voltage : string -> result Q.
Variable read_csv : string -> string -> result DataFrame.
Variable file_path : string.

Local Abbreviation step := (process_file smooth parse_voltage read_csv file_path).
Local Abbreviation loop := (integrate smooth parse_voltage read_csv file_path).
Local Abbreviation met := (entry_of smooth parse_voltage read_csv file_path).

(** The body of the loop, by what it meets. *)
Lemma process_file_entry (g : groups) (file_name : string) :
  step g file_name =
  match met file_name with
  | NotRead => Ok g
  | Analysed v o => Ok (append_outcome (append_voltage g v) o)
  | Rejected v _ => Ok (append_voltage g v)
  | Fatal e => Err e
  end.
Proof.
  unfold process_file, entry_of.
  destruct (endswith file_name ".csv"); [|reflexivity].
  destruct (parse_voltage file_name) as [v|[]]; try reflexivity.
  destruct (read_csv file_path file_name) as [data|[]]; try reflexivity.
  destruct (main_analysis smooth data) as [o|[]]; reflexivity.
Qed.

Lemma integrate_app (g : groups) (before after : list string) :
  loop g (before ++ after) = (g' <- loop g before ;; loop g' after).
Proof.
  revert g. induction before as [|n before IH]; intros g; simpl.
  - reflexivity.
  - destruct (process_file smooth parse_voltage read_csv file_path g n); simpl;
      [apply IH|reflexivity].
Qed.

Lemma extend_nil (g : groups) : extend g [] = g.
Proof.
  destruct g. unfold extend. simpl. now rewrite !app_nil_r.
Qed.

Lemma extend_cons (g : groups) (e : entry) (es : list entry) :
  extend g (e :: es) =
  extend (match e with
          | Analysed v o => append_outcome (append_voltage g v) o
          | Rejected v _ => append_voltage g v
          | _ => g
          end) es.
Proof.
  destruct g, e; unfold extend, append_outcome, append_voltage; simpl;
    rewrite <- ?app_assoc; reflexivity.
Qed.

(** The loop appends, entry after entry, and stops at the first
    exception that is no [ValueError]. *)
Lemma integrate_entries (names : list string) (g : groups) :
  (forall n, In n names -> is_fatal (met n) = false) ->
  loop g names = Ok (extend g (map met names)).
Proof.
  revert g. induction names as [|n names IH]; intros g Hok.
  - simpl. now rewrite extend_nil.
  - cbn [integrate map]. rewrite process_file_entry, extend_cons.
    assert (Hn : is_fatal (met n) = false) by (apply Hok; now left).
    assert (Hrest : forall m, In m names -> is_fatal (met m) = false)
      by (intros m Hm; apply Hok; now right).
    destruct (met n); try discriminate Hn; cbn [bind]; apply IH; exact Hrest.
Qed.

Lemma integrate_fatal (before after : list string) (n : string) (g : groups) (e : exn) :
  (forall m, In m before -> is_fatal (met m) = false) ->
  met n = Fatal e ->
  loop g (before ++ n :: after) = Err e.
Proof.
  intros Hok Hn. rewrite integrate_app, (integrate_entries before g Hok). cbn [bind].
  cbn [integrate]. rewrite process_file_entry, Hn. reflexivity.
Qed.

Lemma voltages_count (es : list entry) :
  length (voltages_of es) =
  (length (dataset_of es) + length (filter is_rejected es))%nat.
Proof.
  induction es as [|[] es IH]; simpl; lia.
Qed.

Lemma voltages_all_analysed (es : list entry) :
  forallb (fun e => negb (is_rejected e)) es = true ->
  voltages_of es = map fst (dataset_of es).
Proof.
  induction es as [|[] es IH]; simpl; intros H; try discriminate H;
    rewrite ?IH by exact H; reflexivity.
Qed.

End BatchLoop.

(** C9.  When no entry of the directory raises anything but a
    [ValueError], [data_integration] returns, and what it returns follows
    the order in which [os.listdir] gave the entries: the four metric
    arrays hold the outcomes of the analysed records in that order, the
    voltage array holds the voltages in that order, and nothing is sorted.
    When every record read is analysed, the voltage array is the voltages
    of the analysed records, in the order of iteration. *)
Theorem data_integration_keeps_order
    (smooth : list Q -> nat -> nat -> list Q) (listdir : string -> list string)
    (parse_voltage : string -> result Q) (read_csv : string -> string -> result DataFrame)
    (file_path : string) :
  (forall n, In n (listdir file_path) ->
     is_fatal (entry_of smooth parse_voltage read_csv file_path n) = false) ->
  exists g : groups,
    data_integration smooth listdir parse_voltage read_csv file_path = Ok g /\
    voltage_group g =
      voltages_of (entries smooth listdir parse_voltage read_csv file_path) /\
    rise_time_group g =
      map (fun r => CH2_rise_duration (snd r))
          (dataset_of (entries smooth listdir parse_voltage read_csv file_path)) /\
    fall_time_group g =
      map (fun r => CH2_fall_duration (snd r))
          (dataset_of (entries smooth listdir parse_voltage read_csv file_path)) /\
    rise_response_time_group g =
      map (fun r => rise_response_time (snd r))
          (dataset_of (entries smooth listdir parse_voltage read_csv file_path)) /\
    fall_response_time_group g =
      map (fun r => fall_response_time (snd r))
          (dataset_of (entries smooth listdir parse_voltage read_csv file_path)) /\
    (forallb (fun e => negb (is_rejected e))
             (entries smooth listdir parse_voltage read_csv file_path) = true ->
     voltage_group g =
       map fst (dataset_of (entries smooth listdir parse_voltage read_csv file_path))).
Proof.
  intros Hok. unfold data_integration, entries.
  rewrite (integrate_entries smooth parse_voltage read_csv file_path _ no_groups Hok).
  eexists. split; [reflexivity|]. cbn [extend voltage_group rise_time_group fall_time_group
    rise_response_time_group fall_response_time_group no_groups app].
  repeat split. apply voltages_all_analysed.
Qed.

Lemma data_integration_keeps_order_witness :
  exists g : groups,
    data_integration keep (disk_listdir three_files) (disk_parse three_files)
      (disk_read three_files) "shutter" = Ok g /\
    voltage_group g =
      voltages_of (entries keep (disk_listdir three_files) (disk_parse three_files)
                     (disk_read three_files) "shutter") /\
    rise_time_group g =
      map (fun r => CH2_rise_duration (snd r))
          (dataset_of (entries keep (disk_listdir three_files) (disk_parse three_files)
                         (disk_read three_files) "shutter")) /\
    fall_time_group g =
      map (fun r => CH2_fall_duration (snd r))
          (dataset_of (entries keep (disk_listdir three_files) (disk_parse three_files)
                         (disk_read three_files) "shutter")) /\
    rise_response_time_group g =
      map (fun r => rise_response_time (snd r))
          (dataset_of (entries keep (disk_listdir three_files) (disk_parse three_files)
                         (disk_read three_files) "shutter")) /\
    fall_response_time_group g =
      map (fun r => fall_response_time (snd r))
          (dataset_of (entries keep (disk_listdir three_files) (disk_parse three_files)
                         (disk_read three_files) "shutter")) /\
    (forallb (fun e => negb (is_rejected e))
             (entries keep (disk_listdir three_files) (disk_parse three_files)
                (disk_read three_files) "shutter") = true ->
     voltage_group g =
       map fst (dataset_of (entries keep (disk_listdir three_files) (disk_parse three_files)
                              (disk_read three_files) "shutter"))).
Proof.
  apply (data_integration_keeps_order keep (disk_listdir three_files)
           (disk_parse three_files) (disk_read three_files) "shutter").
  intros n [<- | [<- | [<- | []]]]; vm_compute; reflexivity.
Defined.

(** The batch submitted in voltage order 5, 1, 3, all three analysed:
    the voltages come back as 5, 1, 3. *)
Example three_files_in_order :
  (g <- run three_files ;; Ok (voltage_group g, lengths g)) =
  Ok ([5; 1; 3], [3; 3; 3; 3; 3]%nat) /\
  map fst (dataset_of (entries keep (disk_listdir three_files) (disk_parse three_files)
                         (disk_read three_files) "shutter")) = [5; 1; 3].
Proof. split; vm_compute; reflexivity. Qed.

(** A capture shorter than the smoothing window is a [ValueError]. *)
Lemma short_capture_is_value_error (smooth : list Q -> nat -> nat -> list Q) (data : DataFrame) :
  (length data < 1511)%nat ->
  main_analysis smooth data = Err (ValueError WindowTooLong).
Proof.
  intros H. unfold main_analysis, main_analysis_prefix. cbv zeta.
  rewrite savgol_filter_short by (now rewrite length_map). reflexivity.
Qed.

(** A response that never leaves one value has empty partitions: a
    [ValueError] of the fit. *)
Example flat_response_is_value_error :
  main_analysis keep (capture 1511 pulse idle) = Err (ValueError EmptyData).
Proof. vm_compute. reflexivity. Qed.

(** Whatever [main_analysis] raises is a [ValueError] or an [IndexError]. *)
Lemma main_analysis_err (smooth : list Q -> nat -> nat -> list Q) (data : DataFrame) (e : exn) :
  main_analysis smooth data = Err e ->
  e = IndexError \/ exists why, e = ValueError why.
Proof.
  unfold main_analysis. destruct (main_analysis_prefix smooth data) as [s|e'] eqn:E; cbn [bind].
  - intros H. apply main_analysis_suffix_err in H.
    destruct H as [[-> _] | [-> _]]; [right; eauto|now left].
  - intros H. injection H as ->. apply main_analysis_prefix_err in E.
    destruct E as [-> | [-> | [-> | ->]]]; [now left|right; eauto..].
Qed.

(** C2, as the code has it.  A record whose analysis raises a
    [ValueError] (a capture shorter than the smoothing window, an empty
    level partition, fewer than two low-level crossings) is caught by the
    loop: nothing is raised for it, no metric is appended for it, and the
    loop goes on with the records after it. *)
Theorem value_error_skips_one_record
    (smooth : list Q -> nat -> nat -> list Q)
    (parse_voltage : string -> result Q) (read_csv : string -> string -> result DataFrame)
    (file_path file_name : string) (voltage : Q) (data : DataFrame) (why : value_error)
    (g : groups) (before after : list string) :
  endswith file_name ".csv" = true ->
  parse_voltage file_name = Ok voltage ->
  read_csv file_path file_name = Ok data ->
  main_analysis smooth data = Err (ValueError why) ->
  exists skipped : groups -> groups,
    (forall h : groups,
       process_file smooth parse_voltage read_csv file_path h file_name = Ok (skipped h) /\
       rise_time_group (skipped h) = rise_time_group h /\
       fall_time_group (skipped h) = fall_time_group h /\
       rise_response_time_group (skipped h) = rise_response_time_group h /\
       fall_response_time_group (skipped h) = fall_response_time_group h) /\
    integrate smooth parse_voltage read_csv file_path g (before ++ file_name :: after) =
    (g' <- integrate smooth parse_voltage read_csv file_path g before ;;
     integrate smooth parse_voltage read_csv file_path (skipped g') after).
Proof.
  intros Hcsv Hv Hd Hfail.
  assert (Hstep : forall h,
             process_file smooth parse_voltage read_csv file_path h file_name
             = Ok (append_voltage h voltage))
    by (intros h; unfold process_file; rewrite Hcsv, Hv, Hd, Hfail; reflexivity).
  exists (fun h => append_voltage h voltage). split.
  - intros h. split; [apply Hstep|]. repeat split.
  - rewrite integrate_app.
    destruct (integrate smooth parse_voltage read_csv file_path g before) as [g'|e];
      cbn [bind]; [|reflexivity].
    cbn [integrate]. rewrite Hstep. reflexivity.
Qed.

Lemma value_error_skips_one_record_witness :
  exists skipped : groups -> groups,
    (forall h : groups,
       process_file keep (disk_parse ten_files) (disk_read ten_files) "shutter" h "S 25.csv"
       = Ok (skipped h) /\
       rise_time_group (skipped h) = rise_time_group h /\
       fall_time_group (skipped h) = fall_time_group h /\
       rise_response_time_group (skipped h) = rise_response_time_group h /\
       fall_response_time_group (skipped h) = fall_response_time_group h) /\
    integrate keep (disk_parse ten_files) (disk_read ten_files) "shutter" no_groups
      (map name (firstn 3 ten_files) ++ "S 25.csv"%string :: map name (skipn 4 ten_files)) =
    (g' <- integrate keep (disk_parse ten_files) (disk_read ten_files) "shutter" no_groups
             (map name (firstn 3 ten_files)) ;;
     integrate keep (disk_parse ten_files) (disk_read ten_files) "shutter" (skipped g')
       (map name (skipn 4 ten_files))).
Proof.
  apply (value_error_skips_one_record keep (disk_parse ten_files) (disk_read ten_files)
           "shutter" "S 25.csv" 25 decay_capture LowCrossingsNotFound).
  - reflexivity.
  - reflexivity.
  - reflexivity.
  - vm_compute. reflexivity.
Defined.

(** C2 as stated fails.  The trigger of [idle_capture] never moves, so no
    pair rises through its midpoint: the analysis of that record fails for
    want of an edge, with an [IndexError].  The loop does not catch it: the
    batch of three records, the other two of which are analysed without
    fault, returns no groups at all. *)
Lemma missing_edge_aborts_batch :
  np_max (map CH1_V idle_capture) = Ok 0 /\ np_min (map CH1_V idle_capture) = Ok 0 /\
  rising_index (map CH1_V idle_capture) ((0 + 0) / 2) = Err IndexError /\
  main_analysis keep idle_capture = Err IndexError /\
  is_ok (main_analysis keep good_capture) = true /\
  run idle_files = Err IndexError.
Proof. repeat (match goal with |- _ /\ _ => split end); vm_compute; reflexivity. Qed.

(** X13.  The lengths of the arrays, for every directory the loop gets
    through: the metric arrays have one entry for each analysed record,
    the voltage array one more for each record that was rejected. *)
Lemma data_integration_lengths
    (smooth : list Q -> nat -> nat -> list Q) (listdir : string -> list string)
    (parse_voltage : string -> result Q) (read_csv : string -> string -> result DataFrame)
    (file_path : string) :
  (forall n, In n (listdir file_path) ->
     is_fatal (entry_of smooth parse_voltage read_csv file_path n) = false) ->
  exists g : groups,
    data_integration smooth listdir parse_voltage read_csv file_path = Ok g /\
    let es := entries smooth listdir parse_voltage read_csv file_path in
    let analysed := length (dataset_of es) in
    lengths g = [ (analysed + length (filter is_rejected es))%nat;
                  analysed; analysed; analysed; analysed ].
Proof.
  intros Hok. unfold data_integration, entries.
  rewrite (integrate_entries smooth parse_voltage read_csv file_path _ no_groups Hok).
  eexists. split; [reflexivity|]. cbv zeta. unfold lengths, extend. simpl.
  now rewrite voltages_count, !length_map.
Qed.

(** C1 on a batch of ten records of which exactly one, the fourth, fails
    its analysis (its response decays and never returns, so there is one
    low-level crossing).  The voltage array has ten entries, the voltage 25
    of the failed record among them; each metric array has nine.  From the
    fourth entry on, a voltage stands against the metrics of the record
    after it. *)
Example ten_files_misaligned :
  main_analysis keep decay_capture = Err (ValueError LowCrossingsNotFound) /\
  low_crossing_count keep decay_capture = Ok 1%nat /\
  (g <- run ten_files ;; Ok (voltage_group g, lengths g)) =
  Ok ([10; 15; 20; 25; 30; 35; 40; 45; 50; 55], [10; 9; 9; 9; 9]%nat).
Proof. repeat (match goal with |- _ /\ _ => split end); vm_compute; reflexivity. Qed.

(** A directory with a capture of three rows and a file that is no CSV:
    the short capture is a [ValueError] of the smoother and is caught, its
    voltage stays in the voltage array; the other file is not read. *)
Example short_files_rejected :
  main_analysis keep short_capture = Err (ValueError WindowTooLong) /\
  (g <- run short_files ;; Ok (voltage_group g, lengths g)) =
  Ok ([5; 1; 3], [3; 2; 2; 2; 2]%nat).
Proof. repeat (match goal with |- _ /\ _ => split end); vm_compute; reflexivity. Qed.

(** * Further properties *)

(** ** The crossing finder and its time base *)

Lemma index_beyond (l : list Q) (i : nat) :
  (length l <= i)%nat -> index l i = Err IndexError.
Proof.
  intros H. unfold index. apply nth_error_None in H. now rewrite H.
Qed.

(** One iteration, exactly: a pair that qualifies appends its crossing if
    the time base reaches its second sample and raises if it does not; a
    pair that does not qualify changes nothing. *)
Lemma intersection_step_exact (x y : list Q) (level : Q) (acc : list Q) (i : nat) :
  (i + 1 < length y)%nat ->
  intersection_step x y level acc i =
  if crossing_at y level i then
    if (i + 1 <? length x)%nat then Ok (acc ++ [interpolate x y level i])
    else Err IndexError
  else Ok acc.
Proof.
  intros Hi. unfold intersection_step, crossing_at, interpolate.
  rewrite (index_nth y i) by lia. rewrite (index_nth y (i + 1)) by lia. cbn [bind].
  destruct (crosses level (nth i y 0) (nth (i + 1) y 0)) eqn:C; [|reflexivity].
  rewrite (checked_div_ok _ _ (crosses_denominator _ _ _ C)). cbn [bind].
  destruct (i + 1 <? length x)%nat eqn:E.
  - apply Nat.ltb_lt in E. rewrite (index_nth x i) by lia.
    rewrite (index_nth x (i + 1)) by lia. reflexivity.
  - apply Nat.ltb_ge in E. rewrite (index_beyond x (i + 1)) by lia.
    destruct (index x i) as [xi|e] eqn:Ei; cbn [bind]; [reflexivity|].
    now rewrite (index_err _ _ _ Ei).
Qed.

Lemma intersection_loop_exact (x y : list Q) (level : Q) (l : list nat) (acc : list Q) :
  (forall i, In i l -> (i + 1 < length y)%nat) ->
  fold_left (intersection_loop x y level) l (Ok acc) =
  if covered x y level l
  then Ok (acc ++ map (interpolate x y level) (filter (crossing_at y level) l))
  else Err IndexError.
Proof.
  revert acc. induction l as [|i l IH]; intros acc Hl.
  - simpl. now rewrite app_nil_r.
  - assert (Hi : (i + 1 < length y)%nat) by (apply Hl; now left).
    assert (Hl' : forall j, In j l -> (j + 1 < length y)%nat)
      by (intros j Hj; apply Hl; now right).
    cbn [fold_left covered forallb filter]. unfold intersection_loop at 2. cbn [bind].
    rewrite (intersection_step_exact x y level acc i Hi).
    destruct (crossing_at y level i); cbn [negb orb andb].
    + destruct (i + 1 <? length x)%nat; cbn [andb].
      * rewrite (IH _ Hl'). fold (covered x y level l).
        destruct (covered x y level l); [|reflexivity].
        cbn [map]. now rewrite <- app_assoc.
      * apply body_failed.
    + rewrite (IH _ Hl'). reflexivity.
Qed.

Lemma covered_pairs (x y : list Q) (level : Q) :
  covered x y level (seq 0 (length y - 1)) = true <->
  forall i, In i (crossing_pairs y level) -> (i + 1 < length x)%nat.
Proof.
  unfold covered, crossing_pairs. rewrite forallb_forall. split.
  - intros H i Hi. apply filter_In in Hi. destruct Hi as [Hin C].
    specialize (H i Hin). rewrite C in H. cbn in H. now apply Nat.ltb_lt in H.
  - intros H i Hin. destruct (crossing_at y level i) eqn:C; [|reflexivity].
    cbn. apply Nat.ltb_lt. apply H. apply filter_In. now split.
Qed.

(** X1.  The crossing finder returns exactly when the time base reaches
    both samples of every pair that qualifies, and what it returns is then
    the interpolation over those pairs; otherwise, and only then, it raises
    [IndexError].  Samples of the time base past the channel, and pairs of
    the channel past the time base that do not qualify, do no harm. *)
Theorem find_intersection_time_base (x y : list Q) (level : Q) :
  (find_intersection x y level = Ok (map (interpolate x y level) (crossing_pairs y level))
   <-> forall i, In i (crossing_pairs y level) -> (i + 1 < length x)%nat) /\
  (find_intersection x y level = Err IndexError
   <-> exists i, In i (crossing_pairs y level) /\ (length x <= i + 1)%nat).
Proof.
  unfold find_intersection.
  rewrite (intersection_loop_exact x y level _ [] (range_in_bounds y)).
  pose proof (covered_pairs x y level) as Hc.
  destruct (covered x y level (seq 0 (length y - 1))) eqn:E.
  - split; split.
    + intros _. now apply Hc.
    + intros _. reflexivity.
    + discriminate.
    + intros (i & Hi & Hlen). pose proof (proj1 Hc eq_refl i Hi). lia.
  - split; split.
    + discriminate.
    + intros H. apply Hc in H. discriminate.
    + intros _. unfold covered in E.
      assert (Hex : existsb (fun i => negb (negb (crossing_at y level i)
                                          || (i + 1 <? length x)%nat))
                      (seq 0 (length y - 1)) = true).
      { clear Hc. induction (seq 0 (length y - 1)) as [|j l IH]; [discriminate E|].
        cbn [forallb existsb] in *.
        destruct (negb (crossing_at y level j) || (j + 1 <? length x)%nat); cbn in *;
          [now apply IH|reflexivity]. }
      apply existsb_exists in Hex. destruct Hex as (i & Hin & Hi).
      apply negb_true_iff, orb_false_iff in Hi. destruct Hi as [C L].
      apply negb_false_iff in C. apply Nat.ltb_ge in L.
      exists i. split; [|exact L]. unfold crossing_pairs. apply filter_In. now split.
    + intros _. reflexivity.
Qed.

(** ** The edge scans *)

(** X3.  Each edge scan raises [IndexError] exactly when no pair of
    neighbouring samples passes the threshold in its direction, which is
    always so on a channel of fewer than two samples; an index it returns
    is the first sample of a pair, never the last sample of the channel. *)
Theorem edge_scan_failure (c : list Q) (thr : Q) :
  (rising_index c thr = Err IndexError <-> forall i, ~ rises_at c thr i) /\
  (falling_index c thr = Err IndexError <-> forall i, ~ falls_at c thr i) /\
  (forall i, rising_index c thr = Ok i \/ falling_index c thr = Ok i ->
     (i + 1 < length c)%nat) /\
  ((length c < 2)%nat ->
   rising_index c thr = Err IndexError /\ falling_index c thr = Err IndexError).
Proof.
  pose proof (rising_index_spec c thr) as Hr.
  pose proof (falling_index_spec c thr) as Hf.
  assert (R : rising_index c thr = Err IndexError <-> forall i, ~ rises_at c thr i).
  { destruct (rising_index c thr) as [i0|e].
    - split; [discriminate|]. intros H. destruct Hr as [Hr _]. exfalso. exact (H i0 Hr).
    - destruct Hr as [-> Hr]. split; [intros _; exact Hr|reflexivity]. }
  assert (F : falling_index c thr = Err IndexError <-> forall i, ~ falls_at c thr i).
  { destruct (falling_index c thr) as [i0|e].
    - split; [discriminate|]. intros H. destruct Hf as [Hf _]. exfalso. exact (H i0 Hf).
    - destruct Hf as [-> Hf]. split; [intros _; exact Hf|reflexivity]. }
  split; [exact R|]. split; [exact F|]. split.
  - intros i [H|H].
    + rewrite H in Hr. destruct Hr as [[Hlen _] _]. exact Hlen.
    + rewrite H in Hf. destruct Hf as [[Hlen _] _]. exact Hlen.
  - intros Hlen. split; [apply R|apply F]; intros i [Hi _]; lia.
Qed.

Lemma non_decreasing_spec (c : list Q) :
  non_decreasing c = true ->
  forall i, (i + 1 < length c)%nat -> nth i c 0 <= nth (i + 1) c 0.
Proof.
  induction c as [|a c IH]; intros H i Hi; [simpl in Hi; lia|].
  cbn [non_decreasing] in H. apply andb_true_iff in H. destruct H as [Hab Hrest].
  destruct i as [|i].
  - destruct c as [|b c]; [simpl in Hi; lia|]. simpl. now apply Qle_bool_iff.
  - change (nth (S i) (a :: c) 0) with (nth i c 0).
    change (nth (S i + 1) (a :: c) 0) with (nth (i + 1) c 0).
    apply IH; [exact Hrest|simpl in Hi; lia].
Qed.

Lemma nth_map_opp (c : list Q) (i : nat) : nth i (map Qopp c) 0 = - nth i c 0.
Proof. exact (map_nth Qopp c 0 i). Qed.

Lemma non_decreasing_never_falls (c : list Q) (thr : Q) :
  non_decreasing c = true -> falling_index c thr = Err IndexError.
Proof.
  intros H. pose proof (falling_index_spec c thr) as Hf.
  destruct (falling_index c thr) as [i|e]; [|now destruct Hf as [-> _]].
  destruct Hf as [(Hlen & H1 & H2) _].
  pose proof (non_decreasing_spec c H i Hlen). lra.
Qed.

Lemma non_increasing_never_rises (c : list Q) (thr : Q) :
  non_decreasing (map Qopp c) = true -> rising_index c thr = Err IndexError.
Proof.
  intros H. pose proof (rising_index_spec c thr) as Hr.
  destruct (rising_index c thr) as [i|e]; [|now destruct Hr as [-> _]].
  destruct Hr as [(Hlen & H1 & H2) _].
  pose proof (non_decreasing_spec _ H i) as Hm. rewrite length_map in Hm.
  specialize (Hm Hlen). rewrite !nth_map_opp in Hm. lra.
Qed.

Lemma savgol_filter_long (smooth : list Q -> nat -> nat -> list Q) (x : list Q) :
  (1511 <= length x)%nat ->
  savgol_filter smooth x 1511%nat 3%nat = Ok (smooth x 1511%nat 3%nat).
Proof.
  intros H. unfold savgol_filter. apply Nat.ltb_ge in H. rewrite H. reflexivity.
Qed.

Lemma np_max_ok (c : list Q) : c <> [] -> exists m, np_max c = Ok m.
Proof. destruct c; [congruence|]. intros _. simpl. eauto. Qed.

Lemma np_min_ok (c : list Q) : c <> [] -> exists m, np_min c = Ok m.
Proof. destruct c; [congruence|]. intros _. simpl. eauto. Qed.

(** X4.  A capture long enough for the smoother in which the smoothed
    trigger only rises, or only falls, has one edge at most: the analysis
    raises [IndexError], whatever the response channel is. *)
Theorem one_way_trigger_raises (smooth : list Q -> nat -> nat -> list Q) (data : DataFrame) :
  keeps_length smooth ->
  (1511 <= length data)%nat ->
  non_decreasing (smooth (map CH1_V data) 1511%nat 3%nat) = true \/
  non_decreasing (map Qopp (smooth (map CH1_V data) 1511%nat 3%nat)) = true ->
  main_analysis smooth data = Err IndexError.
Proof.
  intros Hk Hlen Hmono. unfold main_analysis, main_analysis_prefix. cbv zeta.
  rewrite !savgol_filter_long by (now rewrite length_map). cbn [bind].
  set (CH1 := smooth (map CH1_V data) 1511%nat 3%nat) in *.
  assert (Hne : CH1 <> []).
  { intros E. assert (L : length CH1 = length data)
      by (unfold CH1; now rewrite Hk, length_map).
    rewrite E in L. simpl in L. lia. }
  destruct (np_max_ok CH1 Hne) as [mx ->]. destruct (np_min_ok CH1 Hne) as [mn ->].
  cbn [bind]. destruct Hmono as [Hup|Hdown].
  - destruct (rising_index CH1 ((mx + mn) / 2)) as [i|e] eqn:E; cbn [bind].
    + now rewrite (non_decreasing_never_falls CH1 _ Hup).
    + now rewrite (rising_index_err _ _ _ E).
  - now rewrite (non_increasing_never_rises CH1 _ Hdown).
Qed.

Lemma one_way_trigger_raises_witness :
  main_analysis keep ramp_capture = Err IndexError.
Proof.
  apply (one_way_trigger_raises keep ramp_capture).
  - intros c w p. reflexivity.
  - unfold ramp_capture, capture. rewrite length_map, length_seq. apply le_n.
  - left. vm_compute. reflexivity.
Defined.

(** X5.  The analysis raises the [ValueError] of the smoother exactly
    when the capture has fewer rows than the smoothing window of 1511
    samples; nothing is then read from the channels. *)
Theorem window_too_long_iff (smooth : list Q -> nat -> nat -> list Q) (data : DataFrame) :
  main_analysis smooth data = Err (ValueError WindowTooLong) <-> (length data < 1511)%nat.
Proof.
  split; [|apply short_capture_is_value_error].
  intros H. destruct (Nat.lt_ge_cases (length data) 1511) as [Hlt|Hge]; [exact Hlt|].
  exfalso. revert H. unfold main_analysis.
  destruct (main_analysis_prefix smooth data) as [s|e] eqn:E; cbn [bind].
  - intros H. apply main_analysis_suffix_err in H.
    destruct H as [[H _] | [H _]]; discriminate H.
  - intros H. injection H as ->. revert E.
    unfold main_analysis_prefix. cbv zeta.
    rewrite !savgol_filter_long by (now rewrite length_map). cbn [bind]. intros H.
    do 16 (match type of H with
           | bind ?r _ = Err _ =>
             let E := fresh "E" in
             destruct r eqn:E; cbn [bind] in H;
             [clear E
             |injection H as ->;
              first [ apply np_max_err in E | apply np_min_err in E
                    | apply rising_index_err in E | apply falling_index_err in E
                    | apply index_err in E | apply take_err in E
                    | apply curve_fit_err in E | apply edge_time_err in E
                    | apply find_intersection_failure in E ];
              discriminate E]
           end).
    discriminate H.
Qed.

(** ** The level partitions *)

(** Indexing a channel by the indices at which a mask of its samples
    holds keeps the samples that pass the test, in their order. *)
Lemma take_where_from (f : Q -> bool) (c pre : list Q) :
  take (pre ++ c) (where_from (length pre) (map f c)) = Ok (filter f c).
Proof.
  revert pre. induction c as [|v c IH]; intros pre; [reflexivity|].
  assert (Hrest : take (pre ++ v :: c) (where_from (S (length pre)) (map f c))
                  = Ok (filter f c)).
  { replace (pre ++ v :: c) with ((pre ++ [v]) ++ c) by (now rewrite <- app_assoc).
    replace (S (length pre)) with (length (pre ++ [v]))
      by (rewrite length_app; simpl; lia).
    apply IH. }
  cbn [map where_from filter]. destruct (f v); [|exact Hrest].
  cbn [take]. unfold index. rewrite nth_error_app2 by lia.
  rewrite Nat.sub_diag. cbn [nth_error bind]. now rewrite Hrest.
Qed.

Lemma take_gt_mask (c : list Q) (thr : Q) :
  take c (np_where (gt_mask c thr)) = Ok (filter (fun v => Qltb thr v) c).
Proof. exact (take_where_from (fun v => Qltb thr v) c []). Qed.

Lemma take_lt_mask (c : list Q) (thr : Q) :
  take c (np_where (lt_mask c thr)) = Ok (filter (fun v => Qltb v thr) c).
Proof. exact (take_where_from (fun v => Qltb v thr) c []). Qed.

(** ** The batch loop, further *)

Lemma fatal_is_no_value_error
    (smooth : list Q -> nat -> nat -> list Q)
    (parse_voltage : string -> result Q) (read_csv : string -> string -> result DataFrame)
    (file_path file_name : string) (e : exn) :
  entry_of smooth parse_voltage read_csv file_path file_name = Fatal e ->
  forall why, e <> ValueError why.
Proof.
  unfold entry_of. destruct (endswith file_name ".csv"); [|discriminate].
  destruct (parse_voltage file_name) as [v|[]]; try discriminate;
    try (intros H; injection H as <-; discriminate).
  destruct (read_csv file_path file_name) as [d|[]]; try discriminate;
    try (intros H; injection H as <-; discriminate).
  destruct (main_analysis smooth d) as [o|[]]; try discriminate;
    intros H; injection H as <-; discriminate.
Qed.

(** X9.  The first entry of the directory that raises anything but a
    [ValueError] ends [data_integration]: the function raises that
    exception and returns none of the arrays, whatever the entries before
    it yielded and whatever comes after it. *)
Theorem first_fatal_entry_aborts
    (smooth : list Q -> nat -> nat -> list Q) (listdir : string -> list string)
    (parse_voltage : string -> result Q) (read_csv : string -> string -> result DataFrame)
    (file_path file_name : string) (before after : list string) (e : exn) :
  listdir file_path = before ++ file_name :: after ->
  (forall n, In n before ->
     is_fatal (entry_of smooth parse_voltage read_csv file_path n) = false) ->
  entry_of smooth parse_voltage read_csv file_path file_name = Fatal e ->
  data_integration smooth listdir parse_voltage read_csv file_path = Err e /\
  forall why, e <> ValueError why.
Proof.
  intros Hdir Hbefore Hfatal. split.
  - unfold data_integration. rewrite Hdir. now apply integrate_fatal.
  - exact (fatal_is_no_value_error _ _ _ _ _ _ Hfatal).
Qed.

Lemma first_fatal_entry_aborts_witness :
  data_integration keep (disk_listdir idle_files) (disk_parse idle_files)
    (disk_read idle_files) "shutter" = Err IndexError /\
  forall why, IndexError <> ValueError why.
Proof.
  apply (first_fatal_entry_aborts keep (disk_listdir idle_files) (disk_parse idle_files)
           (disk_read idle_files) "shutter" "S 1.csv"
           ["S 5.csv"%string] ["S 3.csv"%string] IndexError).
  - reflexivity.
  - intros n [<- | []]. vm_compute. reflexivity.
  - vm_compute. reflexivity.
Defined.

(** X10.  Entries that are not read leave no trace: the loop over a
    listing is the loop over the listing without the names that do not end
    in [.csv], and also the loop over the listing without the entries that
    are no CSV name or raise a [ValueError] before the analysis (a name
    that carries no number, a file [pd.read_csv] rejects). *)
Theorem unread_entries_leave_no_trace
    (smooth : list Q -> nat -> nat -> list Q)
    (parse_voltage : string -> result Q) (read_csv : string -> string -> result DataFrame)
    (file_path : string) (g : groups) (names : list string) :
  integrate smooth parse_voltage read_csv file_path g names =
    integrate smooth parse_voltage read_csv file_path g
      (filter (fun n => endswith n ".csv") names) /\
  integrate smooth parse_voltage read_csv file_path g names =
    integrate smooth parse_voltage read_csv file_path g
      (filter (fun n => negb (is_not_read
                               (entry_of smooth parse_voltage read_csv file_path n)))
              names).
Proof.
  split.
  - revert g. induction names as [|n names IH]; intros g; [reflexivity|].
    cbn [filter]. destruct (endswith n ".csv") eqn:E.
    + cbn [integrate].
      destruct (process_file smooth parse_voltage read_csv file_path g n);
        cbn [bind]; [apply IH|reflexivity].
    + cbn [integrate]. unfold process_file at 1. rewrite E. cbn [bind]. apply IH.
  - revert g. induction names as [|n names IH]; intros g; [reflexivity|].
    cbn [filter integrate]. rewrite process_file_entry.
    destruct (entry_of smooth parse_voltage read_csv file_path n) eqn:E;
      cbn [is_not_read negb bind integrate].
    + apply IH.
    + rewrite process_file_entry, E. cbn [bind]. apply IH.
    + rewrite process_file_entry, E. cbn [bind]. apply IH.
    + rewrite process_file_entry, E. reflexivity.
Qed.

(** X11.  [main_plot] on what [data_integration] returns: when the loop
    gets through the directory, both figures are drawn exactly when no
    record was rejected by the analysis; when one was, it is the first call
    of [plt.scatter] that raises (the voltage array is longer than the
    array of rise response times), and never the second alone. *)
Theorem main_plot_after_integration
    (smooth : list Q -> nat -> nat -> list Q) (listdir : string -> list string)
    (parse_voltage : string -> result Q) (read_csv : string -> string -> result DataFrame)
    (file_path : string) :
  (forall n, In n (listdir file_path) ->
     is_fatal (entry_of smooth parse_voltage read_csv file_path n) = false) ->
  exists g : groups,
    data_integration smooth listdir parse_voltage read_csv file_path = Ok g /\
    (main_plot g = BothDrawn <->
     filter is_rejected (entries smooth listdir parse_voltage read_csv file_path) = []) /\
    (main_plot g = RiseScatterRaises <->
     filter is_rejected (entries smooth listdir parse_voltage read_csv file_path) <> []) /\
    main_plot g <> FallScatterRaises.
Proof.
  intros Hok. unfold data_integration, entries.
  rewrite (integrate_entries smooth parse_voltage read_csv file_path _ no_groups Hok).
  eexists. split; [reflexivity|].
  set (es := map (entry_of smooth parse_voltage read_csv file_path) (listdir file_path)).
  unfold main_plot, scatter_accepts. cbv zeta.
  cbn [extend voltage_group rise_response_time_group fall_response_time_group no_groups app].
  rewrite voltages_count, !length_map.
  destruct (filter is_rejected es) as [|r rs] eqn:E.
  - cbn [length]. rewrite Nat.add_0_r, Nat.eqb_refl. cbn [negb].
    repeat split; try discriminate; try congruence.
  - cbn [length].
    replace (length (dataset_of es) + S (length rs) =? length (dataset_of es))%nat
      with false by (symmetry; apply Nat.eqb_neq; lia).
    cbn [negb]. repeat split; try discriminate; try congruence.
Qed.

Lemma main_plot_after_integration_witness :
  exists g : groups,
    data_integration keep (disk_listdir short_files) (disk_parse short_files)
      (disk_read short_files) "shutter" = Ok g /\
    (main_plot g = BothDrawn <->
     filter is_rejected (entries keep (disk_listdir short_files) (disk_parse short_files)
                           (disk_read short_files) "shutter") = []) /\
    (main_plot g = RiseScatterRaises <->
     filter is_rejected (entries keep (disk_listdir short_files) (disk_parse short_files)
                           (disk_read short_files) "shutter") <> []) /\
    main_plot g <> FallScatterRaises.
Proof.
  apply (main_plot_after_integration keep (disk_listdir short_files)
           (disk_parse short_files) (disk_read short_files) "shutter").
  intros n [<- | [<- | [<- | [<- | []]]]]; vm_compute; reflexivity.
Defined.

(** The plot of the directory with the short capture, evaluated. *)
Example short_files_plot :
  (g <- run short_files ;; Ok (main_plot g)) = Ok RiseScatterRaises /\
  (g <- run three_files ;; Ok (main_plot g)) = Ok BothDrawn.
Proof. split; vm_compute; reflexivity. Qed.

Lemma data_integration_lengths_witness :
  exists g : groups,
    data_integration keep (disk_listdir ten_files) (disk_parse ten_files)
      (disk_read ten_files) "shutter" = Ok g /\
    let es := entries keep (disk_listdir ten_files) (disk_parse ten_files)
                (disk_read ten_files) "shutter" in
    let analysed := length (dataset_of es) in
    lengths g = [ (analysed + length (filter is_rejected es))%nat;
                  analysed; analysed; analysed; analysed ].
Proof.
  apply (data_integration_lengths keep (disk_listdir ten_files) (disk_parse ten_files)
           (disk_read ten_files) "shutter").
  intros n Hn.
  assert (F : forallb (fun m => negb (is_fatal (entry_of keep (disk_parse ten_files)
                                                  (disk_read ten_files) "shutter" m)))
                (disk_listdir ten_files "shutter") = true)
    by (vm_compute; reflexivity).
  rewrite forallb_forall in F. specialize (F n Hn).
  now apply negb_true_iff in F.
Defined.

(** ** The test of line 114 *)

Lemma substring_all (s : string) : substring 0 (String.length s) s = s.
Proof. induction s as [|c s IH]; simpl; [reflexivity|now rewrite IH]. Qed.

Lemma substring_suffix (p suffix : string) :
  substring (String.length p) (String.length suffix) (p ++ suffix)%string = suffix.
Proof.
  induction p as [|c p IH]; simpl; [apply substring_all|exact IH].
Qed.

Lemma string_length_append (p q : string) :
  String.length (p ++ q)%string = (String.length p + String.length q)%nat.
Proof. induction p as [|c p IH]; simpl; [reflexivity|now rewrite IH]. Qed.

Lemma string_split_at (s : string) (k : nat) :
  (k <= String.length s)%nat ->
  s = (substring 0 k s ++ substring k (String.length s - k) s)%string.
Proof.
  revert k. induction s as [|c s IH]; intros k Hk.
  - destruct k; [reflexivity|simpl in Hk; lia].
  - destruct k as [|k].
    + cbn [substring String.length Nat.sub append]. now rewrite substring_all.
    + cbn [String.length Nat.sub]. cbn [substring append]. f_equal.
      apply IH. simpl in Hk. lia.
Qed.

(** X12.  The test of line 114 passes exactly the names that are some
    text followed by the suffix: a name shorter than the suffix never
    passes, and the suffix itself does. *)
Theorem endswith_spec (s suffix : string) :
  endswith s suffix = true <-> exists p : string, s = (p ++ suffix)%string.
Proof.
  unfold endswith. cbv zeta. rewrite andb_true_iff, Nat.leb_le, String.eqb_eq. split.
  - intros [Hlen Hsub].
    exists (substring 0 (String.length s - String.length suffix) s).
    rewrite (string_split_at s (String.length s - String.length suffix)) at 1 by lia.
    f_equal. rewrite <- Hsub at 3. f_equal. lia.
  - intros [p ->]. rewrite string_length_append. split; [lia|].
    replace (String.length p + String.length suffix - String.length suffix)%nat
      with (String.length p) by lia.
    apply substring_suffix.
Qed.

(** ** Records are independent *)

Lemma join_no_groups (g : groups) : join_groups g no_groups = g.
Proof. destruct g. unfold join_groups. simpl. now rewrite !app_nil_r. Qed.

Lemma join_extend (g : groups) (es : list entry) :
  extend g es = join_groups g (extend no_groups es).
Proof. reflexivity. Qed.

Lemma integrate_from
    (smooth : list Q -> nat -> nat -> list Q)
    (parse_voltage : string -> result Q) (read_csv : string -> string -> result DataFrame)
    (file_path : string) (names : list string) (g : groups) :
  integrate smooth parse_voltage read_csv file_path g names =
  (h <- integrate smooth parse_voltage read_csv file_path no_groups names ;;
   Ok (join_groups g h)).
Proof.
  revert g. induction names as [|n names IH]; intros g.
  - cbn [integrate bind]. now rewrite join_no_groups.
  - cbn [integrate]. rewrite !process_file_entry.
    destruct (entry_of smooth parse_voltage read_csv file_path n) as [|v o|v w|e];
      cbn [bind]; try reflexivity.
    + apply IH.
    + rewrite (IH (append_outcome (append_voltage g v) o)).
      rewrite (IH (append_outcome (append_voltage no_groups v) o)).
      destruct (integrate smooth parse_voltage read_csv file_path no_groups names);
        cbn [bind]; [|reflexivity].
      destruct g. unfold join_groups, append_outcome, append_voltage. simpl.
      now rewrite <- !app_assoc.
    + rewrite (IH (append_voltage g v)). rewrite (IH (append_voltage no_groups v)).
      destruct (integrate smooth parse_voltage read_csv file_path no_groups names);
        cbn [bind]; [|reflexivity].
      destruct g. unfold join_groups, append_voltage. simpl.
      now rewrite <- !app_assoc.
Qed.

(** X14.  Records are processed independently of each other: the loop
    over a listing cut in two is the loop over the first part followed by
    the loop over the second part started afresh, the five arrays of the
    second appended to those of the first; an exception in either part is
    the exception of the whole. *)
Theorem integrate_in_parts
    (smooth : list Q -> nat -> nat -> list Q)
    (parse_voltage : string -> result Q) (read_csv : string -> string -> result DataFrame)
    (file_path : string) (g : groups) (first_part second_part : list string) :
  integrate smooth parse_voltage read_csv file_path g (first_part ++ second_part) =
  (g1 <- integrate smooth parse_voltage read_csv file_path g first_part ;;
   g2 <- integrate smooth parse_voltage read_csv file_path no_groups second_part ;;
   Ok (join_groups g1 g2)).
Proof.
  rewrite integrate_app.
  destruct (integrate smooth parse_voltage read_csv file_path g first_part) as [g1|e];
    cbn [bind]; [|reflexivity].
  apply integrate_from.
Qed.

(** The three files, as one file and then two. *)
Example three_files_in_parts :
  run three_files =
  (g1 <- integrate keep (disk_parse three_files) (disk_read three_files) "shutter"
           no_groups ["S 5.csv"%string] ;;
   g2 <- integrate keep (disk_parse three_files) (disk_read three_files) "shutter"
           no_groups ["S 1.csv"%string; "S 3.csv"%string] ;;
   Ok (join_groups g1 g2)).
Proof. vm_compute. reflexivity. Qed.

(** ** How many crossings *)







(** ** The ways the analysis fails *)

Lemma rising_index_bound (c : list Q) (thr : Q) (i : nat) :
  rising_index c thr = Ok i -> (i + 1 < length c)%nat.
Proof.
  intros H. pose proof (rising_index_spec c thr) as Hs. rewrite H in Hs.
  now destruct Hs as [[Hlen _] _].
Qed.

Lemma falling_index_bound (c : list Q) (thr : Q) (i : nat) :
  falling_index c thr = Ok i -> (i + 1 < length c)%nat.
Proof.
  intros H. pose proof (falling_index_spec c thr) as Hs. rewrite H in Hs.
  now destruct Hs as [[Hlen _] _].
Qed.

Lemma where_from_bound (mask : list bool) (k i : nat) :
  In i (where_from k mask) -> (i < k + length mask)%nat.
Proof.
  revert k. induction mask as [|b mask IH]; intros k; cbn [where_from]; [intros []|].
  intros H. cbn [length].
  assert (In i (where_from (S k) mask) -> (i < k + S (length mask))%nat)
    by (intros Hi; apply IH in Hi; lia).
  destruct b; [destruct H as [<-|H]; [lia|auto]|auto].
Qed.

Lemma take_total (a : list Q) (idx : list nat) :
  (forall i, In i idx -> (i < length a)%nat) -> exists l, take a idx = Ok l.
Proof.
  induction idx as [|i idx IH]; intros H; cbn [take]; [eauto|].
  rewrite (index_nth a i) by (apply H; now left). cbn [bind].
  destruct IH as [l ->]; [intros j Hj; apply H; now right|]. cbn [bind]. eauto.
Qed.

Lemma take_mask_total (a c : list Q) (f : Q -> bool) :
  length c = length a -> exists l, take a (np_where (map f c)) = Ok l.
Proof.
  intros Hlen. apply take_total. intros i Hi.
  apply where_from_bound in Hi. rewrite length_map in Hi. lia.
Qed.

(** With a time base as long as the channel, an edge time is missing
    only when the scan finds no pair. *)
Lemma edge_time_err_scan (rising : bool) (tm c : list Q) (thr : Q) (e : exn) :
  length c = length tm ->
  edge_time rising tm c thr = Err e ->
  e = IndexError /\
  (if rising then rising_index c thr else falling_index c thr) = Err IndexError.
Proof.
  intros Hlen. unfold edge_time.
  destruct (if rising then rising_index c thr else falling_index c thr)
    as [i|e'] eqn:E; cbn [bind].
  - assert (Hi : (i + 1 < length c)%nat)
      by (destruct rising; [now apply rising_index_bound in E
                           |now apply falling_index_bound in E]).
    rewrite (index_nth tm i) by lia. discriminate.
  - intros H. injection H as <-.
    assert (e' = IndexError)
      by (destruct rising; [now apply rising_index_err in E
                           |now apply falling_index_err in E]).
    subst. now split.
Qed.

(** X16.  On a capture that has the three columns, with a kernel that
    keeps the number of samples, the analysis fails in four ways only: the
    [ValueError] of the smoother, the [ValueError] of the fit, the
    [ValueError] of line 83, and an [IndexError]; and an [IndexError] is
    always that of an edge scan finding no pair at the threshold the code
    uses: a scan of the smoothed trigger at its midpoint (lines 59-60), or
    a scan of the smoothed response at the fitted high level (lines 73 and
    87).  It never comes from reading the time array past its end. *)
Theorem failure_kinds (smooth : list Q -> nat -> nat -> list Q) (data : DataFrame) (e : exn) :
  keeps_length smooth ->
  main_analysis smooth data = Err e ->
  e = ValueError WindowTooLong \/
  e = ValueError EmptyData \/
  e = ValueError LowCrossingsNotFound \/
  (e = IndexError /\
   ((exists CH1_max CH1_min : Q,
       np_max (smooth (map CH1_V data) 1511%nat 3%nat) = Ok CH1_max /\
       np_min (smooth (map CH1_V data) 1511%nat 3%nat) = Ok CH1_min /\
       (rising_index (smooth (map CH1_V data) 1511%nat 3%nat)
          ((CH1_max + CH1_min) / 2) = Err IndexError \/
        falling_index (smooth (map CH1_V data) 1511%nat 3%nat)
          ((CH1_max + CH1_min) / 2) = Err IndexError)) \/
    (exists (CH2_max CH2_min : Q) (time_high : list Q) (CH2_high_level : Q),
       np_max (smooth (map CH2_V data) 1511%nat 3%nat) = Ok CH2_max /\
       np_min (smooth (map CH2_V data) 1511%nat 3%nat) = Ok CH2_min /\
       take (map Time_s data)
            (np_where (gt_mask (smooth (map CH2_V data) 1511%nat 3%nat)
                               ((CH2_max + CH2_min) / 2))) = Ok time_high /\
       curve_fit flat_line time_high
         (filter (fun v => Qltb ((CH2_max + CH2_min) / 2) v)
                 (smooth (map CH2_V data) 1511%nat 3%nat)) = Ok CH2_high_level /\
       (falling_index (smooth (map CH2_V data) 1511%nat 3%nat) CH2_high_level
          = Err IndexError \/
        rising_index (smooth (map CH2_V data) 1511%nat 3%nat) CH2_high_level
          = Err IndexError)))).
Proof.
  intros Hk H.
  destruct (Nat.lt_ge_cases (length data) 1511) as [Hshort|Hlong].
  { rewrite short_capture_is_value_error in H by exact Hshort.
    injection H as <-. now left. }
  right. revert H.
  match goal with |- _ -> ?G => set (kinds := G) end.
  unfold main_analysis, main_analysis_prefix. cbv zeta.
  rewrite !savgol_filter_long by (now rewrite length_map). cbn [bind].
  set (tm := map Time_s data).
  set (c1 := smooth (map CH1_V data) 1511%nat 3%nat).
  set (c2 := smooth (map CH2_V data) 1511%nat 3%nat).
  assert (L1 : length c1 = length tm) by (unfold c1, tm; now rewrite Hk, !length_map).
  assert (L2 : length c2 = length tm) by (unfold c2, tm; now rewrite Hk, !length_map).
  assert (Lt : (1511 <= length tm)%nat) by (unfold tm; now rewrite length_map).
  assert (N1 : c1 <> []) by (intros E; rewrite E in L1; simpl in L1; lia).
  assert (N2 : c2 <> []) by (intros E; rewrite E in L2; simpl in L2; lia).
  destruct (np_max_ok c1 N1) as [mx1 Hmx1]. destruct (np_min_ok c1 N1) as [mn1 Hmn1].
  rewrite Hmx1, Hmn1. cbn [bind].
  destruct (rising_index c1 ((mx1 + mn1) / 2)) as [i|e1] eqn:Er; cbn [bind].
  2:{ intros H. injection H as <-. unfold kinds.
      assert (e1 = IndexError) by exact (rising_index_err _ _ _ Er). subst e1.
      right; right. split; [reflexivity|]. left.
      exists mx1, mn1. split; [exact Hmx1|]. split; [exact Hmn1|]. now left. }
  destruct (falling_index c1 ((mx1 + mn1) / 2)) as [j|e1] eqn:Ef; cbn [bind].
  2:{ intros H. injection H as <-. unfold kinds.
      assert (e1 = IndexError) by exact (falling_index_err _ _ _ Ef). subst e1.
      right; right. split; [reflexivity|]. left.
      exists mx1, mn1. split; [exact Hmx1|]. split; [exact Hmn1|]. now right. }
  apply rising_index_bound in Er. apply falling_index_bound in Ef.
  rewrite (index_nth tm i) by lia. rewrite (index_nth tm j) by lia. cbn [bind].
  destruct (np_max_ok c2 N2) as [mx2 Hmx2]. destruct (np_min_ok c2 N2) as [mn2 Hmn2].
  rewrite Hmx2, Hmn2. cbn [bind].
  destruct (take_mask_total tm c2 (fun v => Qltb ((mx2 + mn2) / 2) v) L2) as [th Hth].
  fold (gt_mask c2 ((mx2 + mn2) / 2)) in Hth.
  rewrite Hth. cbn [bind]. rewrite take_gt_mask. cbn [bind].
  destruct (curve_fit flat_line th _) as [hl|e1] eqn:Eh; cbn [bind].
  2:{ intros H. injection H as <-. unfold kinds.
      rewrite (curve_fit_err _ _ _ _ Eh). now left. }
  destruct (take_mask_total tm c2 (fun v => Qltb v ((mx2 + mn2) / 2)) L2) as [tl Htl].
  fold (lt_mask c2 ((mx2 + mn2) / 2)) in Htl.
  rewrite Htl. cbn [bind]. rewrite take_lt_mask. cbn [bind].
  destruct (curve_fit flat_line tl _) as [ll|e1] eqn:El; cbn [bind].
  2:{ intros H. injection H as <-. unfold kinds.
      rewrite (curve_fit_err _ _ _ _ El). now left. }
  assert (Hscan : forall rising e1,
             edge_time rising tm c2 hl = Err e1 ->
             (if rising then rising_index c2 hl else falling_index c2 hl) = Err IndexError ->
             exists (CH2_max CH2_min : Q) (time_high : list Q) (CH2_high_level : Q),
               np_max c2 = Ok CH2_max /\ np_min c2 = Ok CH2_min /\
               take tm (np_where (gt_mask c2 ((CH2_max + CH2_min) / 2))) = Ok time_high /\
               curve_fit flat_line time_high
                 (filter (fun v => Qltb ((CH2_max + CH2_min) / 2) v) c2)
               = Ok CH2_high_level /\
               (falling_index c2 CH2_high_level = Err IndexError \/
                rising_index c2 CH2_high_level = Err IndexError)).
  { intros rising e1 _ Hnone. exists mx2, mn2, th, hl.
    split; [exact Hmx2|]. split; [exact Hmn2|]. split; [exact Hth|]. split; [exact Eh|].
    destruct rising; [now right|now left]. }
  destruct (edge_time false tm c2 hl) as [fs|e1] eqn:Ee; cbn [bind].
  2:{ intros H. injection H as <-. unfold kinds.
      destruct (edge_time_err_scan false tm c2 hl e1 L2 Ee) as [-> Hnone].
      right; right. split; [reflexivity|]. right. exact (Hscan false _ Ee Hnone). }
  rewrite (find_intersection_total tm c2 ll) by lia. cbn [bind].
  unfold main_analysis_suffix.
  cbn [low_intersections time CH2 CH2_high_level CH2_fall_start_time CH1_left_time
       CH1_right_time].
  destruct (map (interpolate tm c2 ll) (crossing_pairs c2 ll)) as [|q1 [|q2 rest]].
  - intros H. injection H as <-. unfold kinds. right; now left.
  - intros H. injection H as <-. unfold kinds. right; now left.
  - cbv zeta. destruct (edge_time true tm c2 hl) as [re|e1] eqn:Ere; cbn [bind];
      [discriminate|].
    intros H. injection H as <-. unfold kinds.
    destruct (edge_time_err_scan true tm c2 hl e1 L2 Ere) as [-> Hnone].
    right; right. split; [reflexivity|]. right. exact (Hscan true _ Ere Hnone).
Qed.

Lemma failure_kinds_witness :
  IndexError = ValueError WindowTooLong \/
  IndexError = ValueError EmptyData \/
  IndexError = ValueError LowCrossingsNotFound \/
  (IndexError = IndexError /\
   ((exists CH1_max CH1_min : Q,
       np_max (keep (map CH1_V idle_capture) 1511%nat 3%nat) = Ok CH1_max /\
       np_min (keep (map CH1_V idle_capture) 1511%nat 3%nat) = Ok CH1_min /\
       (rising_index (keep (map CH1_V idle_capture) 1511%nat 3%nat)
          ((CH1_max + CH1_min) / 2) = Err IndexError \/
        falling_index (keep (map CH1_V idle_capture) 1511%nat 3%nat)
          ((CH1_max + CH1_min) / 2) = Err IndexError)) \/
    (exists (CH2_max CH2_min : Q) (time_high : list Q) (CH2_high_level : Q),
       np_max (keep (map CH2_V idle_capture) 1511%nat 3%nat) = Ok CH2_max /\
       np_min (keep (map CH2_V idle_capture) 1511%nat 3%nat) = Ok CH2_min /\
       take (map Time_s idle_capture)
            (np_where (gt_mask (keep (map CH2_V idle_capture) 1511%nat 3%nat)
                               ((CH2_max + CH2_min) / 2))) = Ok time_high /\
       curve_fit flat_line time_high
         (filter (fun v => Qltb ((CH2_max + CH2_min) / 2) v)
                 (keep (map CH2_V idle_capture) 1511%nat 3%nat)) = Ok CH2_high_level /\
       (falling_index (keep (map CH2_V idle_capture) 1511%nat 3%nat) CH2_high_level
          = Err IndexError \/
        rising_index (keep (map CH2_V idle_capture) 1511%nat 3%nat) CH2_high_level
          = Err IndexError)))).
Proof.
  apply (failure_kinds keep idle_capture IndexError).
  - intros c w p. reflexivity.
  - vm_compute. reflexivity.
Defined.
